(** * Citrix service status report: the two scripts [src/main.py] and
    [src/Main.py], embedded and verified.

    Both scripts run one linear flow: two HTTP GETs, aggregation of the
    decoded JSON into dictionaries, an HTML report built by string
    concatenation, one file write, one SMTP session.  [src/main.py] is the
    variant with logging; [src/Main.py] is the variant without.

    Layout: interpreter built-ins, data model, the aggregation loops and
    the report text (the lines that are the same in both files), then the
    effectful functions of each file in a module of its own ([Plain] for
    [src/Main.py], [Logged] for [src/main.py]), then the theorems. *)

From Stdlib Require Import ZArith Lia Ascii String.
From stdpp Require Import base option list gmap strings pretty.

Local Open Scope string_scope.
Local Open Scope list_scope.
Local Open Scope Z_scope.

(** ** Interpreter built-ins

    Two built-ins are not determined by the scripts: the order in which a
    [set] is iterated (it depends on hashing and on insertion history, but
    is stable for a set that is not mutated), and the literals accepted by
    [int] on a [str].  A set is modelled by the list of its elements in
    iteration order, so [py_set l] is the constructor [set(l)]. *)

Class Builtins := {
  py_set : list Z → list Z;
  py_set_NoDup : ∀ l, NoDup (py_set l);
  py_set_elem : ∀ l x, x ∈ py_set l ↔ x ∈ l;
  (** [int(s)]: [None] stands for [ValueError]. *)
  py_int : string → option Z
}.

(** ** The JSON documents of the two endpoints *)

(** A record of [/api/connected_hub_services]. *)
Record region_rec := { name : string; service_ids : list Z }.

(** A record of a [services] list of [/api/statuses]. *)
Record service_rec := {
  service_id : Z;
  service_name : string;
  status : Z
}.

Record group_rec := { services : list service_rec }.

(** The object of [/api/statuses]; [groups = None] when the key is absent. *)
Record statuses_doc := { groups : option (list group_rec) }.

(** What [fetch_data] hands back: the decoded body, or the empty mapping
    [{}] it returns after a [requests.RequestException]. *)
Inductive fetched (A : Type) :=
  | EmptyMapping
  | Body (doc : A).
Arguments EmptyMapping {A}.
Arguments Body {A} doc.

(** ** The dictionaries built by the aggregators *)

(** [region_services]: a [dict] that is iterated, so insertion order is
    kept; the value is a set in its iteration order. *)
Definition region_dict := list (string * list Z).

(** [d[k] = v] on an insertion-ordered dict: an existing key keeps its
    position and gets the new value, a new key goes last. *)
Fixpoint dict_setitem {V} (k : string) (v : V) (d : list (string * V))
  : list (string * V) :=
  match d with
  | [] => [(k, v)]
  | (k', v') :: d' =>
      if decide (k' = k) then (k', v) :: d'
      else (k', v') :: dict_setitem k v d'
  end.

(** [d[k]] on such a dict. *)
Fixpoint dict_get {V} (k : string) (d : list (string * V)) : option V :=
  match d with
  | [] => None
  | (k', v') :: d' => if decide (k' = k) then Some v' else dict_get k d'
  end.

(** The value stored per service id: [{'name': ..., 'status': ...}]. *)
Record service_entry := { entry_name : string; entry_status : Z }.

(** [overall_status], a dict with four fixed keys. *)
Record overall := {
  all_up : bool;
  count_status_1 : nat;
  count_status_2 : nat;
  count_status_3 : nat
}.

(** ** Region Aggregator: the loop of [get_region_services]
    (main.py 37-39, Main.py 24-26) *)

(** Iterating the fetched value: a list yields its records, the empty
    mapping yields nothing. *)
Definition region_records (data : fetched (list region_rec)) : list region_rec :=
  match data with
  | EmptyMapping => []
  | Body l => l
  end.

Definition region_step `{Builtins} (region_services : region_dict) (region : region_rec)
  : region_dict :=
  dict_setitem (name region) (py_set (service_ids region)) region_services.

Definition region_loop `{Builtins} (data : fetched (list region_rec)) : region_dict :=
  fold_left region_step (region_records data) [].

(** ** Status Aggregator: the loops of [get_service_statuses]
    (main.py 47-64, Main.py 32-49) *)

Definition overall_init : overall :=
  {| all_up := true; count_status_1 := 0; count_status_2 := 0; count_status_3 := 0 |}.

Definition count_step (overall_status : overall) (st : Z) : overall :=
  if st =? 1 then
    {| all_up := all_up overall_status;
       count_status_1 := S (count_status_1 overall_status);
       count_status_2 := count_status_2 overall_status;
       count_status_3 := count_status_3 overall_status |}
  else if st =? 2 then
    {| all_up := false;
       count_status_1 := count_status_1 overall_status;
       count_status_2 := S (count_status_2 overall_status);
       count_status_3 := count_status_3 overall_status |}
  else if st =? 3 then
    {| all_up := false;
       count_status_1 := count_status_1 overall_status;
       count_status_2 := count_status_2 overall_status;
       count_status_3 := S (count_status_3 overall_status) |}
  else overall_status.

Definition service_step (acc : gmap Z service_entry * overall) (service : service_rec)
  : gmap Z service_entry * overall :=
  let '(service_statuses, overall_status) := acc in
  let service_statuses :=
    <[service_id service :=
        {| entry_name := service_name service; entry_status := status service |}]>
      service_statuses in
  (service_statuses, count_step overall_status (status service)).

Definition group_step (acc : gmap Z service_entry * overall) (group : group_rec)
  : gmap Z service_entry * overall :=
  fold_left service_step (services group) acc.

(** ['groups' in data]: false for the empty mapping. *)
Definition groups_of (data : fetched statuses_doc) : option (list group_rec) :=
  match data with
  | EmptyMapping => None
  | Body doc => groups doc
  end.

Definition status_loop (data : fetched statuses_doc) : gmap Z service_entry * overall :=
  match groups_of data with
  | Some gs => fold_left group_step gs (∅, overall_init)
  | None => (∅, overall_init)
  end.

(** The service records in the order the nested loops visit them. *)
Definition walked (data : fetched statuses_doc) : list service_rec :=
  match groups_of data with
  | Some gs => concat (map services gs)
  | None => []
  end.

(** ** Report Builder: the text of [create_report]
    (main.py 75-126, Main.py 57-108) *)

(** [str(b)] for a bool, as an f-string renders it. *)
Definition py_bool_str (b : bool) : string := if b then "True" else "False".

(** ["Up" if service['status'] == 1 else "Down"] *)
Definition display_status (st : Z) : string := if st =? 1 then "Up" else "Down".

(** One pass of the inner loop of "Services by Region". *)
Definition listing_step (service_statuses : gmap Z service_entry)
    (report : string) (service_id : Z) : string :=
  match service_statuses !! service_id with
  | Some service =>
      let status := display_status (entry_status service) in
      report +:+ "<li>" +:+ entry_name service +:+ ": " +:+ status +:+ "</li>"
  | None => report
  end.

(** One pass of the outer loop of "Services by Region". *)
Definition listing_region (service_statuses : gmap Z service_entry)
    (report : string) (item : string * list Z) : string :=
  let '(region, service_ids) := item in
  let report := report +:+ "<h3>" +:+ region +:+ ":</h3>" in
  let report := report +:+ "<ul>" in
  let report := fold_left (listing_step service_statuses) service_ids report in
  report +:+ "</ul>".

(** [region_status = defaultdict(list)]: reading a missing key gives []. *)
Definition dd_get (region_status : gmap string (list string)) (k : string)
  : list string :=
  default [] (region_status !! k).

(** [region_status[k].append(x)] *)
Definition dd_append (region_status : gmap string (list string)) (k x : string)
  : gmap string (list string) :=
  <[k := dd_get region_status k ++ [x]]> region_status.

(** One pass of the inner loop of "Detailed Status by Region". *)
Definition partition_step (service_statuses : gmap Z service_entry)
    (region_status : gmap string (list string)) (service_id : Z)
  : gmap string (list string) :=
  match service_statuses !! service_id with
  | Some service =>
      let status := display_status (entry_status service) in
      dd_append region_status status (entry_name service)
  | None => region_status
  end.

(** [for service in names: report += f"<li>{service}</li>"] *)
Definition item_list (report : string) (names : list string) : string :=
  fold_left (λ report service, report +:+ "<li>" +:+ service +:+ "</li>") names report.

(** A non-empty list is truthy. *)
Definition truthy {A} (l : list A) : bool :=
  match l with [] => false | _ => true end.

(** One pass of the outer loop of "Detailed Status by Region". *)
Definition detailed_region (service_statuses : gmap Z service_entry)
    (report : string) (item : string * list Z) : string :=
  let '(region, service_ids) := item in
  let report := report +:+ "<h3>" +:+ region +:+ ":</h3>" in
  let region_status := fold_left (partition_step service_statuses) service_ids ∅ in
  let report :=
    report +:+ "<p>Services Up: " +:+ pretty (length (dd_get region_status "Up")) +:+ "</p>" in
  let report :=
    report +:+ "<p>Services Down: " +:+ pretty (length (dd_get region_status "Down")) +:+ "</p>" in
  let report :=
    if truthy (dd_get region_status "Up") then
      let report := report +:+ "<h4>Services Up:</h4>" in
      let report := report +:+ "<ul>" in
      let report := item_list report (dd_get region_status "Up") in
      report +:+ "</ul>"
    else report in
  if truthy (dd_get region_status "Down") then
    let report := report +:+ "<h4>Services Down:</h4>" in
    let report := report +:+ "<ul>" in
    let report := item_list report (dd_get region_status "Down") in
    report +:+ "</ul>"
  else report.

(** The title, the summary and the overall counts. *)
Definition report_head (region_services : region_dict)
    (service_statuses : gmap Z service_entry) (overall_status : overall) : string :=
  let report := "<html><body>" in
  let report := report +:+ "<h1>Citrix Service Status Summary</h1>" in
  let report := report +:+ "<h2>Summary:</h2>" in
  let report :=
    report +:+ "<p>Total number of regions: " +:+ pretty (length region_services) +:+ "</p>" in
  let report :=
    report +:+ "<p>Total number of services: " +:+ pretty (size service_statuses) +:+ "</p>" in
  let report :=
    report +:+ "<p>Overall status: "
      +:+ (if all_up overall_status then "All services up" else "Some services are down")
      +:+ "</p>" in
  let report := report +:+ "<h2>Overall Status:</h2>" in
  let report :=
    report +:+ "<p>All services up: " +:+ py_bool_str (all_up overall_status) +:+ "</p>" in
  let report :=
    report +:+ "<p>Services up: " +:+ pretty (count_status_1 overall_status) +:+ "</p>" in
  let report :=
    report +:+ "<p>Services with issues: " +:+ pretty (count_status_2 overall_status) +:+ "</p>" in
  report +:+ "<p>Services down: " +:+ pretty (count_status_3 overall_status) +:+ "</p>".

(** The whole string built between the two aggregator calls and [return]. *)
Definition report_text (region_services : region_dict)
    (service_statuses : gmap Z service_entry) (overall_status : overall) : string :=
  let report := report_head region_services service_statuses overall_status in
  let report := report +:+ "<h2>Services by Region:</h2>" in
  let report := fold_left (listing_region service_statuses) region_services report in
  let report := report +:+ "<h2>Detailed Status by Region:</h2>" in
  let report := fold_left (detailed_region service_statuses) region_services report in
  report +:+ "</body></html>".

(** ** String built-ins used outside the report *)

(** [s.lower()] on ASCII letters. *)
Definition lower_ascii (c : ascii) : ascii :=
  let n := N_of_ascii c in
  if ((65 <=? n) && (n <=? 90))%N then ascii_of_N (n + 32) else c.

Fixpoint lower (s : string) : string :=
  match s with
  | EmptyString => EmptyString
  | String c s' => String (lower_ascii c) (lower s')
  end.

(** [s.split(sep)] for a one-character separator. *)
Fixpoint split (sep : ascii) (s : string) : list string :=
  match s with
  | EmptyString => [EmptyString]
  | String c s' =>
      if Ascii.eqb c sep then EmptyString :: split sep s'
      else match split sep s' with
           | [] => [String c EmptyString]
           | word :: words => String c word :: words
           end
  end.

(** [sep.join(l)] *)
Fixpoint join (sep : string) (l : list string) : string :=
  match l with
  | [] => ""
  | [x] => x
  | x :: l' => x +:+ sep +:+ join sep l'
  end.

(** ** The outside world *)

(** [requests.get(url)] followed by [raise_for_status()] and [json()]:
    a [requests.RequestException] with its text, or the decoded body.
    Each endpoint is typed by the shape of its documents (spec, section 6).
    [RequestException] is an exception of [requests.get] or of
    [raise_for_status], raised before the success line of [src/main.py]
    is logged; [Response] is a body that decodes to a document of the
    endpoint's shape.  A 2xx body that is no JSON, or JSON of another
    shape, is not among the worlds: the statements about whole runs are
    about runs whose fetches end in one of these two ways. *)
Inductive http_result (A : Type) :=
  | RequestException (msg : string)
  | Response (doc : A).
Arguments RequestException {A} msg.
Arguments Response {A} doc.

(** The exceptions the scripts can meet outside [fetch_data]; all are
    subclasses of [Exception]. *)
Inductive exn :=
  | AttributeError (msg : string)
  | TypeError (msg : string)
  | ValueError (msg : string)
  | SMTPException (msg : string)
  | OSError (msg : string).

(** [str(e)] *)
Definition exn_str (e : exn) : string :=
  match e with
  | AttributeError msg | TypeError msg | ValueError msg
  | SMTPException msg | OSError msg => msg
  end.

(** How the SMTP server behaves at each step of a session: [Some e] when
    the step raises [e]. *)
Record smtp_behaviour := {
  on_connect : option exn;
  on_starttls : option exn;
  on_login : option exn;
  on_send_message : option exn;
  on_quit : option exn
}.

Record world := {
  hub_services_api : http_result (list region_rec);
  statuses_api : http_result statuses_doc;
  environ : gmap string string;
  smtp : smtp_behaviour
}.

(** The MIME message of [send_email]. *)
Record message := {
  msg_From : option string;
  msg_To : string;
  msg_Subject : string;
  msg_html : string
}.

Inductive smtp_action :=
  | Connect (host : option string) (port : Z)
  | StartTLS
  | Login (user password : option string)
  | SendMessage (msg : message)
  | Quit.

Inductive level := INFO | ERROR.

(** What a run leaves behind. *)
Record effects := {
  stdout : list string;
  log : list (level * string);
  files : gmap string string;
  smtp_trace : list smtp_action
}.

Inductive result (A : Type) :=
  | Ret (a : A)
  | Raise (e : exn).
Arguments Ret {A} a.
Arguments Raise {A} e.

(** Exit status of the interpreter once [main()] is over. *)
Definition exit_code {A} (r : result A) : Z :=
  match r with Ret _ => 0 | Raise _ => 1 end.

(** ** A state and exception monad for the effectful functions *)

Definition M (A : Type) : Type := effects → result A * effects.

Global Instance M_ret : MRet M := λ A a fx, (Ret a, fx).

Global Instance M_bind : MBind M := λ A B f m fx,
  match m fx with
  | (Ret a, fx') => f a fx'
  | (Raise e, fx') => (Raise e, fx')
  end.

Definition raise {A} (e : exn) : M A := λ fx, (Raise e, fx).

(** [print(s)] *)
Definition print (s : string) : M unit := λ fx,
  (Ret (),
   {| stdout := stdout fx ++ [s]; log := log fx;
      files := files fx; smtp_trace := smtp_trace fx |}).

(** [logger.log(level, ...)]; the time stamp put before the text is left out. *)
Definition log_with_timestamp (lvl : level) (message : string) : M unit := λ fx,
  (Ret (),
   {| stdout := stdout fx; log := log fx ++ [(lvl, message)];
      files := files fx; smtp_trace := smtp_trace fx |}).

(** [with open(path, "w") as f: f.write(text)]; the write is taken to
    succeed. *)
Definition write_file (path text : string) : M unit := λ fx,
  (Ret (),
   {| stdout := stdout fx; log := log fx;
      files := <[path := text]> (files fx); smtp_trace := smtp_trace fx |}).

(** One step of the SMTP session: recorded, then it raises or not. *)
Definition smtp_do (a : smtp_action) (failure : option exn) : M unit := λ fx,
  let fx' := {| stdout := stdout fx; log := log fx;
                files := files fx; smtp_trace := smtp_trace fx ++ [a] |} in
  match failure with
  | Some e => (Raise e, fx')
  | None => (Ret (), fx')
  end.

(** Leaving a [with smtplib.SMTP(...)] block: [__exit__] sends QUIT
    whether [body] raised or not and lets the exception of [body] through. *)
Definition smtp_exit (w : world) (body : M unit) : M unit := λ fx,
  let '(r, fx1) := body fx in
  match smtp_do Quit (on_quit (smtp w)) fx1 with
  | (Ret _, fx2) => (r, fx2)
  | (Raise e, fx2) => (Raise e, fx2)
  end.

(** [with smtplib.SMTP(host, port) as server: body]; the constructor
    connects. *)
Definition with_SMTP (w : world) (host : option string) (port : Z) (body : M unit)
  : M unit :=
  smtp_do (Connect host port) (on_connect (smtp w));;
  smtp_exit w body.

(** [try: body / except Exception as e: handler e] *)
Definition try_except {A} (body : M A) (handler : exn → M A) : M A := λ fx,
  match body fx with
  | (Ret a, fx') => (Ret a, fx')
  | (Raise e, fx') => handler e fx'
  end.

(** [int(os.getenv(k))]: [TypeError] on [None], [ValueError] on a string
    that is no integer literal. *)
Definition int_getenv `{Builtins} (w : world) (k : string) : M Z :=
  match environ w !! k with
  | None => raise (TypeError "int() argument must be a string, a bytes-like object or a real number, not 'NoneType'")
  | Some s =>
      match py_int s with
      | Some n => mret n
      | None => raise (ValueError ("invalid literal for int() with base 10: '" +:+ s +:+ "'"))
      end
  end.

(** The body of the [with] block of [send_email] (the same in both files). *)
Definition smtp_session (w : world) (use_tls : bool)
    (smtp_username smtp_password : option string) (msg : message) : M unit :=
  (if use_tls then smtp_do StartTLS (on_starttls (smtp w)) else mret ());;
  smtp_do (Login smtp_username smtp_password) (on_login (smtp w));;
  smtp_do (SendMessage msg) (on_send_message (smtp w)).

Definition hub_url : string := "https://status.cloud.com/api/connected_hub_services".
Definition statuses_url : string := "https://status.cloud.com/api/statuses".
Definition report_path : string := "citrix_service_status_report.html".

(** [os.getenv('USE_TLS', 'False').lower() == 'true'] *)
Definition use_tls_of (w : world) : bool :=
  bool_decide (lower (default "False" (environ w !! "USE_TLS")) = "true").

(** [os.getenv('EMAIL_RECIPIENTS').split(',')]: [None] has no [split]. *)
Definition recipients_of (w : world) : M (list string) :=
  match environ w !! "EMAIL_RECIPIENTS" with
  | None => raise (AttributeError "'NoneType' object has no attribute 'split'")
  | Some s => mret (split "," s)
  end.

(** ** [src/Main.py]: the variant without logging *)

Module Plain.

Definition fetch_data {A} (url : string) (response : http_result A) : M (fetched A) :=
  match response with
  | Response doc => mret (Body doc)
  | RequestException e =>
      print ("Error fetching data from " +:+ url +:+ ": " +:+ e);;
      mret EmptyMapping
  end.

Definition get_region_services `{Builtins} (w : world) : M region_dict :=
  let url := hub_url in
  data ← fetch_data url (hub_services_api w);
  mret (region_loop data).

Definition get_service_statuses (w : world) : M (gmap Z service_entry * overall) :=
  let url := statuses_url in
  data ← fetch_data url (statuses_api w);
  mret (status_loop data).

Definition create_report `{Builtins} (w : world) : M string :=
  region_services ← get_region_services w;
  '(service_statuses, overall_status) ← get_service_statuses w;
  mret (report_text region_services service_statuses overall_status).

(** No [try] around the session: what it raises leaves [send_email]. *)
Definition send_email `{Builtins} (w : world) (subject body : string)
    (recipients : list string) : M unit :=
  let smtp_server := environ w !! "SMTP_SERVER" in
  smtp_port ← int_getenv w "SMTP_PORT";
  let smtp_username := environ w !! "SMTP_USERNAME" in
  let smtp_password := environ w !! "SMTP_PASSWORD" in
  let use_tls := use_tls_of w in
  let msg := {| msg_From := smtp_username; msg_To := join ", " recipients;
                msg_Subject := subject; msg_html := body |} in
  with_SMTP w smtp_server smtp_port
    (smtp_session w use_tls smtp_username smtp_password msg).

Definition main `{Builtins} (w : world) : M unit :=
  report ← create_report w;
  print report;;
  write_file report_path report;;
  recipients ← recipients_of w;
  let subject := "Citrix Service Status Report" in
  send_email w subject report recipients.

End Plain.

(** ** [src/main.py]: the variant with logging *)

Module Logged.

Definition fetch_data {A} (url : string) (response : http_result A) : M (fetched A) :=
  log_with_timestamp INFO ("Fetching data from " +:+ url);;
  match response with
  | Response doc =>
      log_with_timestamp INFO ("Successfully fetched data from " +:+ url);;
      mret (Body doc)
  | RequestException e =>
      log_with_timestamp ERROR ("Error fetching data from " +:+ url +:+ ": " +:+ e);;
      mret EmptyMapping
  end.

Definition get_region_services `{Builtins} (w : world) : M region_dict :=
  log_with_timestamp INFO "Getting region services";;
  let url := hub_url in
  data ← fetch_data url (hub_services_api w);
  let region_services := region_loop data in
  log_with_timestamp INFO ("Found " +:+ pretty (length region_services) +:+ " regions");;
  mret region_services.

Definition get_service_statuses (w : world) : M (gmap Z service_entry * overall) :=
  log_with_timestamp INFO "Getting service statuses";;
  let url := statuses_url in
  data ← fetch_data url (statuses_api w);
  let '(service_statuses, overall_status) := status_loop data in
  log_with_timestamp INFO ("Found " +:+ pretty (size service_statuses) +:+ " services");;
  log_with_timestamp INFO
    ("Overall status: " +:+ (if all_up overall_status then "All up" else "Some services down"));;
  mret (service_statuses, overall_status).

Definition create_report `{Builtins} (w : world) : M string :=
  log_with_timestamp INFO "Creating report";;
  region_services ← get_region_services w;
  '(service_statuses, overall_status) ← get_service_statuses w;
  let report := report_text region_services service_statuses overall_status in
  log_with_timestamp INFO "Report created successfully";;
  mret report.

(** The session sits in [try ... except Exception]. *)
Definition send_email `{Builtins} (w : world) (subject body : string)
    (recipients : list string) : M unit :=
  log_with_timestamp INFO ("Sending email to " +:+ join ", " recipients);;
  let smtp_server := environ w !! "SMTP_SERVER" in
  smtp_port ← int_getenv w "SMTP_PORT";
  let smtp_username := environ w !! "SMTP_USERNAME" in
  let smtp_password := environ w !! "SMTP_PASSWORD" in
  let use_tls := use_tls_of w in
  let msg := {| msg_From := smtp_username; msg_To := join ", " recipients;
                msg_Subject := subject; msg_html := body |} in
  try_except
    (with_SMTP w smtp_server smtp_port
       (smtp_session w use_tls smtp_username smtp_password msg);;
     log_with_timestamp INFO "Email sent successfully")
    (λ e, log_with_timestamp ERROR ("Error sending email: " +:+ exn_str e)).

Definition main `{Builtins} (w : world) : M unit :=
  log_with_timestamp INFO "Starting Citrix Service Status Report script";;
  report ← create_report w;
  log_with_timestamp INFO "Saving report to file";;
  write_file report_path report;;
  log_with_timestamp INFO ("Report saved to " +:+ report_path);;
  recipients ← recipients_of w;
  let subject := "Citrix Service Status Report" in
  send_email w subject report recipients;;
  log_with_timestamp INFO "Script execution completed".

End Logged.

(** ** Substrings *)

Fixpoint is_prefix (s t : string) : bool :=
  match s, t with
  | EmptyString, _ => true
  | String a s', String b t' => Ascii.eqb a b && is_prefix s' t'
  | String _ _, EmptyString => false
  end.

(** [s in t] for strings. *)
Fixpoint contains (s t : string) : bool :=
  is_prefix s t ||
  match t with
  | EmptyString => false
  | String _ t' => contains s t'
  end.

(** ** Fixtures *)

(** Unsigned decimal literals: part of what [int] accepts, enough to run
    the model on the usual port numbers. *)
Definition digit_of (c : ascii) : option Z :=
  let n := N_of_ascii c in
  if ((48 <=? n) && (n <=? 57))%N then Some (Z.of_N n - 48) else None.

Fixpoint decimal_go (acc : Z) (s : string) : option Z :=
  match s with
  | EmptyString => Some acc
  | String c s' =>
      match digit_of c with
      | Some d => decimal_go (10 * acc + d) s'
      | None => None
      end
  end.

Definition decimal_int (s : string) : option Z :=
  match s with
  | EmptyString => None
  | _ => decimal_go 0 s
  end.

(** Built-ins for running the model: a set iterates in order of first
    occurrence. *)
Definition first_seen : Builtins :=
  {| py_set := remove_dups;
     py_set_NoDup := NoDup_remove_dups;
     py_set_elem := λ l x, elem_of_remove_dups l x;
     py_int := decimal_int |}.

(** * Vocabulary of the statements and concrete worlds *)

(** The counters after a walk, as counts over the status codes met. *)
Definition count_of (n : Z) (sts : list Z) : nat :=
  length (filter (λ st, st = n) sts).

(** A status code that some counter takes. *)
Definition recognised (st : Z) : Prop := st = 1 ∨ st = 2 ∨ st = 3.

(** The sum the spec bounds. *)
Definition counted (o : overall) : nat :=
  (count_status_1 o + count_status_2 o + count_status_3 o)%nat.

(** [overall_status] once the records [l] have been walked. *)
Definition overall_after (l : list service_rec) : overall :=
  snd (fold_left service_step l (∅, overall_init)).

(** The value stored for a record. *)
Definition entry_of (s : service_rec) : service_entry :=
  {| entry_name := service_name s; entry_status := status s |}.

(** The last record of [l] that carries the id [i]. *)
Definition last_with_id (i : Z) (l : list service_rec) : option service_rec :=
  last (filter (λ s, service_id s = i) l).

(** The number of distinct values of a list. *)
Definition distinct {A} `{EqDecision A} (l : list A) : nat := length (remove_dups l).

(** The last record of [l] named [k]. *)
Definition last_named (k : string) (l : list region_rec) : option region_rec :=
  last (filter (λ r, name r = k) l).

(** The text a list of pieces adds up to. *)
Definition flat (l : list string) : string := foldr String.append "" l.

(** The list item of a service in "Services by Region". *)
Definition listing_item (e : service_entry) : string :=
  "<li>" +:+ entry_name e +:+ ": " +:+ display_status (entry_status e) +:+ "</li>".

(** The entries of the ids of a region that the status mapping knows, in
    iteration order. *)
Definition known_entries (m : gmap Z service_entry) (ids : list Z) : list service_entry :=
  omap (m !!.) ids.

Definition up_names (m : gmap Z service_entry) (ids : list Z) : list string :=
  entry_name <$> filter (λ e, entry_status e = 1) (known_entries m ids).

Definition down_names (m : gmap Z service_entry) (ids : list Z) : list string :=
  entry_name <$> filter (λ e, entry_status e ≠ 1) (known_entries m ids).

Definition listing_text (m : gmap Z service_entry) (item : string * list Z) : string :=
  "<h3>" +:+ fst item +:+ ":</h3>" +:+ "<ul>"
  +:+ flat (map listing_item (known_entries m (snd item))) +:+ "</ul>".

Definition name_items (names : list string) : string :=
  flat (map (λ service, "<li>" +:+ service +:+ "</li>") names).

Definition detailed_text (m : gmap Z service_entry) (item : string * list Z) : string :=
  let up := up_names m (snd item) in
  let down := down_names m (snd item) in
  "<h3>" +:+ fst item +:+ ":</h3>"
  +:+ "<p>Services Up: " +:+ pretty (length up) +:+ "</p>"
  +:+ "<p>Services Down: " +:+ pretty (length down) +:+ "</p>"
  +:+ (if truthy up then "<h4>Services Up:</h4>" +:+ "<ul>" +:+ name_items up +:+ "</ul>"
       else "")
  +:+ (if truthy down then "<h4>Services Down:</h4>" +:+ "<ul>" +:+ name_items down +:+ "</ul>"
       else "").

(** What follows the summary and the counts. *)
Definition report_tail (region_services : region_dict) (m : gmap Z service_entry)
  : string :=
  "<h2>Services by Region:</h2>"
  +:+ flat (map (listing_text m) region_services)
  +:+ "<h2>Detailed Status by Region:</h2>"
  +:+ flat (map (detailed_text m) region_services)
  +:+ "</body></html>".

(** The value [fetch_data] returns for a response. *)
Definition fetched_of {A} (r : http_result A) : fetched A :=
  match r with
  | RequestException _ => EmptyMapping
  | Response doc => Body doc
  end.

(** The report a world leads to. *)
Definition report_of `{Builtins} (w : world) : string :=
  report_text (region_loop (fetched_of (hub_services_api w)))
    (fst (status_loop (fetched_of (statuses_api w))))
    (snd (status_loop (fetched_of (statuses_api w)))).

(** The effects that outlive the console: files and SMTP traffic. *)
Definition durable (fx : effects) : gmap string string * list smtp_action :=
  (files fx, smtp_trace fx).

(** The first exception of the body of the [with] block, if any. *)
Definition body_failure (w : world) (use_tls : bool) : option exn :=
  match (if use_tls then on_starttls (smtp w) else None) with
  | Some e => Some e
  | None =>
      match on_login (smtp w) with
      | Some e => Some e
      | None => on_send_message (smtp w)
      end
  end.

(** The exception that leaves the [with] statement, if any. *)
Definition session_failure (w : world) (use_tls : bool) : option exn :=
  match on_connect (smtp w) with
  | Some e => Some e
  | None =>
      match on_quit (smtp w) with
      | Some e => Some e
      | None => body_failure w use_tls
      end
  end.

Definition result_of (failure : option exn) : result unit :=
  match failure with Some e => Raise e | None => Ret () end.

(** What [int(os.getenv('SMTP_PORT'))] raises, if anything. *)
Definition port_failure `{Builtins} (w : world) : option exn :=
  match environ w !! "SMTP_PORT" with
  | None => Some (TypeError "int() argument must be a string, a bytes-like object or a real number, not 'NoneType'")
  | Some s =>
      match py_int s with
      | Some _ => None
      | None => Some (ValueError ("invalid literal for int() with base 10: '" +:+ s +:+ "'"))
      end
  end.

(** What leaves [send_email] of [src/Main.py]. *)
Definition plain_send_failure `{Builtins} (w : world) : option exn :=
  match port_failure w with
  | Some e => Some e
  | None => session_failure w (use_tls_of w)
  end.

Definition no_split : exn := AttributeError "'NoneType' object has no attribute 'split'".

(** The uncaught exception that ends [main()] of [src/Main.py], if any. *)
Definition plain_main_failure `{Builtins} (w : world) : option exn :=
  match environ w !! "EMAIL_RECIPIENTS" with
  | None => Some no_split
  | Some _ => plain_send_failure w
  end.

(** The uncaught exception that ends [main()] of [src/main.py], if any. *)
Definition logged_main_failure `{Builtins} (w : world) : option exn :=
  match environ w !! "EMAIL_RECIPIENTS" with
  | None => Some no_split
  | Some _ => port_failure w
  end.

(** The region mapping without the ids the status mapping does not know. *)
Definition prune (m : gmap Z service_entry) (region_services : region_dict) : region_dict :=
  map (λ item, (fst item, filter (λ i, is_Some (m !! i)) (snd item))) region_services.

Definition no_effects : effects := {| stdout := []; log := []; files := ∅; smtp_trace := [] |}.

Definition smtp_ok : smtp_behaviour :=
  {| on_connect := None; on_starttls := None; on_login := None;
     on_send_message := None; on_quit := None |}.

Definition fixture_hub : list region_rec :=
  [ {| name := "EU"; service_ids := [1; 2] |};
    {| name := "US"; service_ids := [2; 3; 4] |} ].

Definition fixture_doc : statuses_doc :=
  {| groups := Some
       [ {| services :=
              [ {| service_id := 1; service_name := "Gateway"; status := 1 |};
                {| service_id := 2; service_name := "Directory"; status := 1 |} ] |};
         {| services :=
              [ {| service_id := 3; service_name := "Workspace"; status := 3 |} ] |} ] |}.

Definition fixture_env : gmap string string :=
  {[ "SMTP_SERVER" := "smtp.example.com"; "SMTP_PORT" := "587";
     "SMTP_USERNAME" := "reports@example.com"; "SMTP_PASSWORD" := "secret";
     "USE_TLS" := "True"; "EMAIL_RECIPIENTS" := "ops@example.com,noc@example.com" ]}.

Definition w_fixture : world :=
  {| hub_services_api := Response fixture_hub;
     statuses_api := Response fixture_doc;
     environ := fixture_env;
     smtp := smtp_ok |}.

Definition w_fetch_failed : world :=
  {| hub_services_api := RequestException "503 Server Error";
     statuses_api := RequestException "503 Server Error";
     environ := fixture_env;
     smtp := smtp_ok |}.

Definition w_no_recipients : world :=
  {| hub_services_api := Response fixture_hub;
     statuses_api := Response fixture_doc;
     environ := delete "EMAIL_RECIPIENTS" fixture_env;
     smtp := smtp_ok |}.

Definition connection_refused : exn := OSError "[Errno 111] Connection refused".

Definition w_smtp_refused : world :=
  {| hub_services_api := Response fixture_hub;
     statuses_api := Response fixture_doc;
     environ := fixture_env;
     smtp := {| on_connect := Some connection_refused; on_starttls := None;
                on_login := None; on_send_message := None; on_quit := None |} |}.

Definition login_rejected : exn := SMTPException "(535, b'5.7.8 Authentication failed')".

Definition w_login_rejected : world :=
  {| hub_services_api := Response fixture_hub;
     statuses_api := Response fixture_doc;
     environ := fixture_env;
     smtp := {| on_connect := None; on_starttls := None;
                on_login := Some login_rejected; on_send_message := None;
                on_quit := None |} |}.

(** ** Further vocabulary *)

(** The values of a list, each at the place of its first occurrence. *)
Fixpoint first_occurrences (l : list string) : list string :=
  match l with
  | [] => []
  | x :: l' => x :: filter (λ y, y ≠ x) (first_occurrences l')
  end.

(** How often a character occurs in a string. *)
Fixpoint count_char (c : ascii) (s : string) : nat :=
  match s with
  | EmptyString => 0%nat
  | String x s' => ((if Ascii.eqb x c then 1 else 0) + count_char c s')%nat
  end.

(** The ids of a region that have a status record. *)
Definition known_ids (m : gmap Z service_entry) (ids : list Z) : list Z :=
  filter (λ i, is_Some (m !! i)) ids.

(** A response with a status code that is neither 1, 2 nor 3. *)
Definition legacy_doc : statuses_doc :=
  {| groups := Some
       [ {| services :=
              [ {| service_id := 1; service_name := "Gateway"; status := 1 |};
                {| service_id := 5; service_name := "Legacy"; status := 4 |} ] |} ] |}.

(** A response in which every service is up. *)
Definition healthy_doc : statuses_doc :=
  {| groups := Some
       [ {| services :=
              [ {| service_id := 1; service_name := "Gateway"; status := 1 |};
                {| service_id := 2; service_name := "Directory"; status := 1 |} ] |} ] |}.

(** The message [send_email] builds. *)
Definition message_of (w : world) (subject body : string) (recipients : list string)
  : message :=
  {| msg_From := environ w !! "SMTP_USERNAME"; msg_To := join ", " recipients;
     msg_Subject := subject; msg_html := body |}.

(** The SMTP steps attempted inside the [with] block. *)
Definition body_steps (w : world) (use_tls : bool) (user password : option string)
    (msg : message) : list smtp_action :=
  let after_tls :=
    Login user password
    :: match on_login (smtp w) with Some _ => [] | None => [SendMessage msg] end in
  if use_tls then
    StartTLS :: match on_starttls (smtp w) with Some _ => [] | None => after_tls end
  else after_tls.

(** The SMTP steps attempted after the connection was asked for. *)
Definition session_steps (w : world) (use_tls : bool) (user password : option string)
    (msg : message) : list smtp_action :=
  match on_connect (smtp w) with
  | Some _ => []
  | None => body_steps w use_tls user password msg ++ [Quit]
  end.

(** The steps [send_email] attempts once the port is read. *)
Definition send_steps (w : world) (port : Z) (subject body : string)
    (recipients : list string) : list smtp_action :=
  Connect (environ w !! "SMTP_SERVER") port
  :: session_steps w (use_tls_of w) (environ w !! "SMTP_USERNAME")
       (environ w !! "SMTP_PASSWORD") (message_of w subject body recipients).


(** A computation leaves the observation [f] of the effects as it was. *)
Definition keeps {A B} (f : effects → B) (m : M A) : Prop :=
  ∀ fx, f (snd (m fx)) = f fx.

(** The lines about failed fetches, in the order of the two fetches. *)
Definition fetch_errors (w : world) : list string :=
  match hub_services_api w with
  | RequestException e => ["Error fetching data from " +:+ hub_url +:+ ": " +:+ e]
  | Response _ => []
  end ++
  match statuses_api w with
  | RequestException e => ["Error fetching data from " +:+ statuses_url +:+ ": " +:+ e]
  | Response _ => []
  end.

(** A server that fails the STARTTLS step. *)
Definition starttls_refused : exn := SMTPException "STARTTLS extension not supported by server.".

Definition w_no_starttls : world :=
  {| hub_services_api := Response fixture_hub;
     statuses_api := Response fixture_doc;
     environ := fixture_env;
     smtp := {| on_connect := None; on_starttls := Some starttls_refused;
                on_login := None; on_send_message := None; on_quit := None |} |}.

Definition w_no_port : world :=
  {| hub_services_api := Response fixture_hub;
     statuses_api := Response fixture_doc;
     environ := delete "SMTP_PORT" fixture_env;
     smtp := smtp_ok |}.

(** The log line that closes a fetch in [src/main.py]. *)
Definition fetch_entry {A} (url : string) (r : http_result A) : level * string :=
  match r with
  | Response _ => (INFO, "Successfully fetched data from " +:+ url)
  | RequestException e => (ERROR, "Error fetching data from " +:+ url +:+ ": " +:+ e)
  end.

(** The log lines of [create_report] in [src/main.py]. *)
Definition report_log `{Builtins} (w : world) : list (level * string) :=
  let region_services := region_loop (fetched_of (hub_services_api w)) in
  let service_statuses := fst (status_loop (fetched_of (statuses_api w))) in
  let overall_status := snd (status_loop (fetched_of (statuses_api w))) in
  [ (INFO, "Creating report");
    (INFO, "Getting region services");
    (INFO, "Fetching data from " +:+ hub_url);
    fetch_entry hub_url (hub_services_api w);
    (INFO, "Found " +:+ pretty (length region_services) +:+ " regions");
    (INFO, "Getting service statuses");
    (INFO, "Fetching data from " +:+ statuses_url);
    fetch_entry statuses_url (statuses_api w);
    (INFO, "Found " +:+ pretty (size service_statuses) +:+ " services");
    (INFO, "Overall status: "
           +:+ (if all_up overall_status then "All up" else "Some services down"));
    (INFO, "Report created successfully") ].

(** The log lines of [send_email] in [src/main.py]. *)
Definition send_log `{Builtins} (w : world) (recipients : list string)
  : list (level * string) :=
  (INFO, "Sending email to " +:+ join ", " recipients)
  :: match port_failure w with
     | Some _ => []
     | None =>
         [ match session_failure w (use_tls_of w) with
           | None => (INFO, "Email sent successfully")
           | Some e => (ERROR, "Error sending email: " +:+ exn_str e)
           end ]
     end.

(** The log lines of a run of [src/main.py]. *)
Definition main_log `{Builtins} (w : world) : list (level * string) :=
  (INFO, "Starting Citrix Service Status Report script")
  :: report_log w
  ++ [ (INFO, "Saving report to file");
       (INFO, "Report saved to " +:+ report_path) ]
  ++ match environ w !! "EMAIL_RECIPIENTS" with
     | None => []
     | Some r =>
         send_log w (split "," r)
         ++ match port_failure w with
            | Some _ => []
            | None => [(INFO, "Script execution completed")]
            end
     end.

(** * Properties *)

(** ** The status loop *)

Lemma fold_group_step gs acc :
  fold_left group_step gs acc = fold_left service_step (concat (map services gs)) acc.
Proof.
  revert acc. induction gs as [|g gs IH]; intros acc; simpl; [done|].
  rewrite fold_left_app. apply IH.
Qed.

Lemma status_loop_walked data :
  status_loop data = fold_left service_step (walked data) (∅, overall_init).
Proof.
  unfold status_loop, walked. destruct (groups_of data); [|done].
  apply fold_group_step.
Qed.

Lemma fold_service_step_snd l m o :
  snd (fold_left service_step l (m, o)) = fold_left count_step (map status l) o.
Proof.
  revert m o. induction l as [|s l IH]; intros m o; simpl; [done|]. apply IH.
Qed.

Lemma count_of_cons n st sts :
  count_of n (st :: sts) = ((if decide (st = n) then 1 else 0)%nat + count_of n sts)%nat.
Proof. unfold count_of. rewrite filter_cons. by case_decide. Qed.

Lemma count_step_spec o st :
  count_status_1 (count_step o st)
    = (count_status_1 o + if decide (st = 1%Z) then 1 else 0)%nat
  ∧ count_status_2 (count_step o st)
    = (count_status_2 o + if decide (st = 2%Z) then 1 else 0)%nat
  ∧ count_status_3 (count_step o st)
    = (count_status_3 o + if decide (st = 3%Z) then 1 else 0)%nat
  ∧ all_up (count_step o st)
    = all_up o && negb (bool_decide (st = 2 ∨ st = 3)).
Proof.
  unfold count_step.
  destruct (Z.eqb_spec st 1) as [->|H1]; simpl.
  { rewrite andb_true_r. repeat split; lia. }
  destruct (Z.eqb_spec st 2) as [->|H2]; simpl.
  { rewrite andb_false_r. repeat split; lia. }
  destruct (Z.eqb_spec st 3) as [->|H3]; simpl.
  { rewrite andb_false_r. repeat split; lia. }
  rewrite bool_decide_eq_false_2 by lia. simpl.
  rewrite andb_true_r. repeat case_decide; try lia. repeat split; lia.
Qed.

Lemma fold_count_step sts o :
  count_status_1 (fold_left count_step sts o) = (count_status_1 o + count_of 1 sts)%nat
  ∧ count_status_2 (fold_left count_step sts o) = (count_status_2 o + count_of 2 sts)%nat
  ∧ count_status_3 (fold_left count_step sts o) = (count_status_3 o + count_of 3 sts)%nat
  ∧ all_up (fold_left count_step sts o)
    = all_up o && forallb (λ st, negb (bool_decide (st = 2 ∨ st = 3))) sts.
Proof.
  revert o. induction sts as [|st sts IH]; intros o; simpl.
  { unfold count_of; simpl. rewrite andb_true_r. repeat split; lia. }
  destruct (IH (count_step o st)) as (E1 & E2 & E3 & E4).
  destruct (count_step_spec o st) as (S1 & S2 & S3 & S4).
  rewrite E1, E2, E3, E4, S1, S2, S3, S4, !count_of_cons, andb_assoc.
  repeat split; lia.
Qed.

Lemma overall_after_counts l :
  count_status_1 (overall_after l) = count_of 1 (map status l)
  ∧ count_status_2 (overall_after l) = count_of 2 (map status l)
  ∧ count_status_3 (overall_after l) = count_of 3 (map status l)
  ∧ all_up (overall_after l)
    = forallb (λ st, negb (bool_decide (st = 2 ∨ st = 3))) (map status l).
Proof.
  unfold overall_after. rewrite fold_service_step_snd.
  destruct (fold_count_step (map status l) overall_init) as (E1 & E2 & E3 & E4).
  rewrite E1, E2, E3, E4. done.
Qed.

Lemma count_of_sum_le sts :
  (count_of 1 sts + count_of 2 sts + count_of 3 sts ≤ length sts)%nat.
Proof.
  induction sts as [|st sts IH]; [unfold count_of; simpl; lia|].
  rewrite !count_of_cons; simpl. repeat case_decide; lia.
Qed.

Lemma count_of_sum_eq sts :
  Forall recognised sts →
  (count_of 1 sts + count_of 2 sts + count_of 3 sts)%nat = length sts.
Proof.
  induction 1 as [|st sts Hst _ IH]; [done|].
  rewrite !count_of_cons; simpl. unfold recognised in Hst.
  repeat case_decide; lia.
Qed.

Lemma count_of_zero n sts : count_of n sts = 0%nat ↔ Forall (λ st, st ≠ n) sts.
Proof.
  induction sts as [|st sts IH]; [by split; intros; [constructor|]|].
  rewrite count_of_cons, Forall_cons. case_decide; split.
  - lia.
  - intros [? _]. congruence.
  - intros. split; [done|]. apply IH. lia.
  - intros [_ ?%IH]. lia.
Qed.

Lemma status_loop_overall data :
  snd (status_loop data) = overall_after (walked data).
Proof. by rewrite status_loop_walked. Qed.

(** ** The status mapping *)

Lemma fold_service_step_lookup l m o i :
  fst (fold_left service_step l (m, o)) !! i
  = match last_with_id i l with
    | Some s => Some (entry_of s)
    | None => m !! i
    end.
Proof.
  revert m o. unfold last_with_id.
  induction l as [|s l IH]; intros m o; simpl; [done|].
  rewrite IH, filter_cons. case_decide as Hi.
  - rewrite last_cons. destruct (last _); [done|].
    subst i. by rewrite lookup_insert_eq.
  - destruct (last _); [done|]. by rewrite lookup_insert_ne.
Qed.

Lemma fold_service_step_dom l m o :
  dom (fst (fold_left service_step l (m, o)))
  = dom m ∪ list_to_set (map service_id l).
Proof.
  revert m o. induction l as [|s l IH]; intros m o; simpl.
  - by rewrite (right_id_L ∅ (∪)).
  - by rewrite IH, dom_insert_L, (comm_L (∪) {[_]}), <-(assoc_L (∪)).
Qed.

Lemma size_list_to_set_distinct (l : list Z) :
  size (list_to_set l : gset Z) = distinct l.
Proof.
  unfold distinct. rewrite <-(size_list_to_set (C:=gset Z) (remove_dups l)).
  - f_equal. apply set_eq. intros x.
    by rewrite !elem_of_list_to_set, elem_of_remove_dups.
  - apply NoDup_remove_dups.
Qed.

Lemma status_loop_size data :
  size (fst (status_loop data)) = distinct (map service_id (walked data)).
Proof.
  rewrite status_loop_walked, <-size_dom, fold_service_step_dom, dom_empty_L.
  rewrite (left_id_L ∅ (∪)). apply size_list_to_set_distinct.
Qed.

Lemma status_loop_lookup data i :
  fst (status_loop data) !! i = entry_of <$> last_with_id i (walked data).
Proof.
  rewrite status_loop_walked, fold_service_step_lookup.
  destruct (last_with_id _ _); by rewrite ?lookup_empty.
Qed.

Lemma distinct_le {A} `{EqDecision A} (l : list A) : (distinct l ≤ length l)%nat.
Proof.
  unfold distinct. induction l as [|x l IH]; simpl; [done|].
  case_decide; simpl; lia.
Qed.

Lemma distinct_NoDup {A} `{EqDecision A} (l : list A) : NoDup l → distinct l = length l.
Proof.
  unfold distinct. induction 1 as [|x l Hx _ IH]; simpl; [done|].
  case_decide; [done|]. simpl. by rewrite IH.
Qed.

Lemma all_up_after l :
  all_up (overall_after l) = false ↔ Exists (λ s, status s = 2 ∨ status s = 3) l.
Proof.
  destruct (overall_after_counts l) as (_ & _ & _ & ->).
  induction l as [|s l IH]; simpl.
  - rewrite Exists_nil. split; [done|tauto].
  - rewrite Exists_cons, <-IH, andb_false_iff, negb_false_iff, bool_decide_eq_true.
    done.
Qed.

(** C1: for every status response, the three counters sum to at most the
    number of service records walked, and to exactly that number when every
    record's status code is 1, 2 or 3; [all_up] ends true exactly when
    [count_status_2] and [count_status_3] are both zero; [all_up] starts
    true, is false after a prefix of the walk exactly when that prefix holds
    a status-2 or status-3 record, and once false it is false at the end. *)
Theorem status_counts_invariant (data : fetched statuses_doc) :
  let overall_status := snd (status_loop data) in
  (counted overall_status ≤ length (walked data))%nat
  ∧ (Forall (λ s, recognised (status s)) (walked data) →
     counted overall_status = length (walked data))
  ∧ (all_up overall_status = true ↔
     count_status_2 overall_status = 0%nat ∧ count_status_3 overall_status = 0%nat)
  ∧ all_up overall_init = true
  ∧ (∀ l1 l2, walked data = l1 ++ l2 →
       (all_up (overall_after l1) = false ↔
        Exists (λ s, status s = 2 ∨ status s = 3) l1)
       ∧ (all_up (overall_after l1) = false → all_up overall_status = false)).
Proof.
  intros overall_status. subst overall_status. rewrite status_loop_overall.
  destruct (overall_after_counts (walked data)) as (E1 & E2 & E3 & E4).
  unfold counted. rewrite E1, E2, E3, E4.
  pose proof all_up_after as Hall.
  split; [|split; [|split; [|split]]].
  - rewrite <-(length_map status). apply count_of_sum_le.
  - intros Hrec. rewrite <-(length_map status). apply count_of_sum_eq.
    by apply Forall_fmap.
  - rewrite !count_of_zero, <-E4, <-(not_false_iff_true (all_up _)), Hall.
    rewrite <-Forall_Exists_neg, !Forall_fmap, !Forall_forall. unfold compose.
    split.
    + intros Hn. split; intros s Hs ?; apply (Hn s Hs); tauto.
    + intros [H2 H3] s Hs [?|?]; [by apply (H2 s)|by apply (H3 s)].
  - done.
  - intros l1 l2 Hsplit. split; [apply Hall|].
    rewrite <-E4, !Hall, Hsplit, Exists_app. tauto.
Qed.

(** ** Insertion-ordered dictionaries and the region loop *)

Section dict.
Context {V : Type}.
Implicit Types (d : list (string * V)) (k : string) (v : V).

Lemma dict_get_setitem_eq k v d : dict_get k (dict_setitem k v d) = Some v.
Proof.
  induction d as [|[k' v'] d IH]; cbn [dict_get dict_setitem map fst].
  - by rewrite decide_True.
  - case_decide as Hk; cbn [dict_get dict_setitem map fst]; [by rewrite decide_True|by rewrite decide_False].
Qed.

Lemma dict_get_setitem_ne k k' v d :
  k ≠ k' → dict_get k' (dict_setitem k v d) = dict_get k' d.
Proof.
  intros Hne. induction d as [|[k0 v0] d IH]; cbn [dict_get dict_setitem map fst].
  - by rewrite decide_False.
  - case_decide as Hk; cbn [dict_get dict_setitem map fst].
    + subst k0. by rewrite !decide_False.
    + case_decide; [done|apply IH].
Qed.

Lemma dict_keys_setitem k v d :
  map fst (dict_setitem k v d)
  = if decide (k ∈ map fst d) then map fst d else map fst d ++ [k].
Proof.
  induction d as [|[k' v'] d IH]; cbn [dict_get dict_setitem map fst].
  - rewrite decide_False; [done|]. apply not_elem_of_nil.
  - destruct (decide (k' = k)) as [Hk|Hk]; cbn [dict_get dict_setitem map fst].
    + subst k'. rewrite decide_True; [done|]. apply list_elem_of_here.
    + rewrite IH. destruct (decide (k ∈ map fst d)) as [Hin|Hin].
      * rewrite decide_True; [done|]. by apply list_elem_of_further.
      * rewrite decide_False; [done|]. rewrite elem_of_cons.
        intros [->|?]; done.
Qed.

Lemma dict_keys_setitem_NoDup k v d :
  NoDup (map fst d) → NoDup (map fst (dict_setitem k v d)).
Proof.
  intros Hd. rewrite dict_keys_setitem. case_decide as Hin; [done|].
  apply NoDup_app. split; [done|]. split; [|apply NoDup_singleton].
  intros x Hx ->%list_elem_of_singleton. done.
Qed.

Lemma dict_get_Some_elem k v d : dict_get k d = Some v → (k, v) ∈ d.
Proof.
  induction d as [|[k' v'] d IH]; cbn [dict_get dict_setitem map fst]; [done|].
  case_decide as Hk.
  - intros [= ->]. subst k'. apply list_elem_of_here.
  - intros Hg. apply list_elem_of_further, IH, Hg.
Qed.

Lemma dict_elem_get k v d : NoDup (map fst d) → (k, v) ∈ d → dict_get k d = Some v.
Proof.
  induction d as [|[k' v'] d IH]; cbn [dict_get dict_setitem map fst].
  - intros _ Hin. by apply elem_of_nil in Hin.
  - intros [Hk' Hd]%NoDup_cons [Heq|Hin]%elem_of_cons.
    + injection Heq as -> ->. by rewrite decide_True.
    + rewrite decide_False; [by apply IH|].
      intros ->. apply Hk'. apply list_elem_of_fmap. by exists (k, v).
Qed.

Lemma dict_get_is_Some k d : is_Some (dict_get k d) ↔ k ∈ map fst d.
Proof.
  induction d as [|[k' v'] d IH]; cbn [dict_get dict_setitem map fst].
  - split; [by intros [? ?]|]. intros Hin. by apply elem_of_nil in Hin.
  - rewrite elem_of_cons. case_decide as Hk; cbn [dict_get dict_setitem map fst].
    + split; [by left|by eexists].
    + rewrite IH. split; [by right|]. intros [->|?]; [done|done].
Qed.
End dict.

Section region_loop.
Context `{Builtins}.

Lemma fold_region_step_get l d k :
  dict_get k (fold_left region_step l d)
  = match last_named k l with
    | Some r => Some (py_set (service_ids r))
    | None => dict_get k d
    end.
Proof.
  revert d. unfold last_named.
  induction l as [|r l IH]; intros d; simpl; [done|].
  rewrite IH, filter_cons. unfold region_step. case_decide as Hk.
  - rewrite last_cons. destruct (last _); [done|].
    subst k. apply dict_get_setitem_eq.
  - destruct (last _); [done|]. by apply dict_get_setitem_ne.
Qed.

Lemma fold_region_step_NoDup l d :
  NoDup (map fst d) → NoDup (map fst (fold_left region_step l d)).
Proof.
  revert d. induction l as [|r l IH]; intros d Hd; simpl; [done|].
  apply IH, dict_keys_setitem_NoDup, Hd.
Qed.

Lemma last_named_is_Some k l : is_Some (last_named k l) ↔ k ∈ map name l.
Proof.
  unfold last_named. rewrite last_is_Some, list_elem_of_fmap. split.
  - intros Hne. destruct (filter _ l) as [|r l'] eqn:Hf; [done|].
    assert (Hr : r ∈ filter (λ r, name r = k) l) by (rewrite Hf; apply list_elem_of_here).
    apply list_elem_of_filter in Hr as [Hr ?]. by exists r.
  - intros (r & -> & Hr) Hf.
    assert (Hin : r ∈ filter (λ r', name r' = name r) l)
      by (by apply list_elem_of_filter).
    rewrite Hf in Hin. by apply elem_of_nil in Hin.
Qed.

Lemma region_loop_keys data k :
  k ∈ map fst (region_loop data) ↔ k ∈ map name (region_records data).
Proof.
  unfold region_loop.
  rewrite <-dict_get_is_Some, fold_region_step_get, <-last_named_is_Some.
  destruct (last_named _ _); simpl; [|done].
  split; intros _; by eexists.
Qed.

Lemma region_loop_NoDup data : NoDup (map fst (region_loop data)).
Proof. apply fold_region_step_NoDup. constructor. Qed.

Lemma region_loop_length data :
  length (region_loop data) = distinct (map name (region_records data)).
Proof.
  rewrite <-(length_map fst). unfold distinct. apply Permutation_length.
  apply NoDup_Permutation.
  - apply region_loop_NoDup.
  - apply NoDup_remove_dups.
  - intros k. by rewrite region_loop_keys, elem_of_remove_dups.
Qed.
End region_loop.

(** C5: the region mapping has exactly one entry per distinct [name] of the
    response; the entry of a name holds the set of the [service_ids] of the
    last record with that name, so a later record replaces an earlier one
    of the same name instead of being merged with it. *)
Theorem region_mapping_last_wins `{Builtins} (data : fetched (list region_rec)) :
  let region_services := region_loop data in
  let records := region_records data in
  NoDup (map fst region_services)
  ∧ (∀ k, k ∈ map fst region_services ↔ k ∈ map name records)
  ∧ length region_services = distinct (map name records)
  ∧ (∀ k ids, (k, ids) ∈ region_services ↔
       ∃ r, last_named k records = Some r ∧ ids = py_set (service_ids r))
  ∧ (∀ k ids, (k, ids) ∈ region_services →
       ∃ r, last_named k records = Some r
            ∧ NoDup ids ∧ ∀ x, x ∈ ids ↔ x ∈ service_ids r).
Proof.
  intros region_services records.
  assert (Hget : ∀ k ids, (k, ids) ∈ region_services ↔
            ∃ r, last_named k records = Some r ∧ ids = py_set (service_ids r)).
  { intros k ids. subst region_services records. split.
    - intros Hin%dict_elem_get; [|apply region_loop_NoDup].
      unfold region_loop in Hin. rewrite fold_region_step_get in Hin.
      destruct (last_named _ _) as [r|]; [|done].
      injection Hin as <-. by exists r.
    - intros (r & Hr & ->). apply dict_get_Some_elem.
      unfold region_loop. by rewrite fold_region_step_get, Hr. }
  split; [apply region_loop_NoDup|].
  split; [apply region_loop_keys|].
  split; [apply region_loop_length|].
  split; [apply Hget|].
  intros k ids (r & Hr & ->)%Hget. exists r.
  split; [done|]. split; [apply py_set_NoDup|apply py_set_elem].
Qed.

(** ** Strings *)

Lemma append_cons x (a b : string) : String x a +:+ b = String x (a +:+ b).
Proof. reflexivity. Qed.

Lemma append_assoc (a b c : string) : (a +:+ b) +:+ c = a +:+ b +:+ c.
Proof. induction a as [|x a IH]; [done|]. by rewrite !append_cons, IH. Qed.

Lemma append_nil_r (a : string) : a +:+ "" = a.
Proof. induction a as [|x a IH]; [done|]. by rewrite append_cons, IH. Qed.

Lemma is_prefix_app (s a b : string) :
  is_prefix s a = true → is_prefix s (a +:+ b) = true.
Proof.
  revert a. induction s as [|x s IH]; intros [|y a]; try done.
  rewrite append_cons. cbn [is_prefix].
  rewrite !andb_true_iff. intros [? ?]. split; [done|by apply IH].
Qed.

Lemma contains_app_l (s a b : string) :
  contains s a = true → contains s (a +:+ b) = true.
Proof.
  induction a as [|y a IH].
  - destruct s; [|done]. intros _. by destruct b.
  - rewrite append_cons. cbn [contains]. rewrite !orb_true_iff. intros [Hp|Hc].
    + left. by apply (is_prefix_app _ (String y a)).
    + right. by apply IH.
Qed.

Lemma contains_app_r (s a b : string) :
  contains s b = true → contains s (a +:+ b) = true.
Proof.
  intros Hb. induction a as [|y a IH]; [done|].
  rewrite append_cons. cbn [contains]. rewrite IH. apply orb_true_r.
Qed.

(** A loop whose body only appends to [report] appends the pieces in turn. *)
Lemma fold_left_appends {A} (f : string → A → string) (g : A → string) :
  (∀ report x, f report x = report +:+ g x) →
  ∀ l report, fold_left f l report = report +:+ flat (map g l).
Proof.
  intros Hf. induction l as [|x l IH]; intros report; simpl.
  - by rewrite append_nil_r.
  - by rewrite IH, Hf, append_assoc.
Qed.

(** ** The report text in closed form *)

Lemma listing_step_item m report i :
  listing_step m report i
  = report +:+ match m !! i with Some e => listing_item e | None => "" end.
Proof.
  unfold listing_step, listing_item. destruct (m !! i); [done|].
  by rewrite append_nil_r.
Qed.

Lemma flat_listing_items m ids :
  flat (map (λ i, match m !! i with Some e => listing_item e | None => "" end) ids)
  = flat (map listing_item (known_entries m ids)).
Proof.
  unfold known_entries. induction ids as [|i ids IH]; simpl; [done|].
  destruct (m !! i); simpl; by rewrite IH.
Qed.

Lemma listing_region_text m report item :
  listing_region m report item = report +:+ listing_text m item.
Proof.
  destruct item as [region ids]. unfold listing_region, listing_text; simpl.
  rewrite (fold_left_appends _ _ (listing_step_item m)), flat_listing_items.
  by rewrite !append_assoc.
Qed.

Lemma dd_get_append rs k x k' :
  dd_get (dd_append rs k x) k'
  = if decide (k = k') then dd_get rs k ++ [x] else dd_get rs k'.
Proof.
  unfold dd_append, dd_get at 1. case_decide as Hk.
  - subst k'. by rewrite lookup_insert_eq.
  - by rewrite lookup_insert_ne.
Qed.

Lemma display_status_spec st :
  display_status st = if decide (st = 1) then "Up" else "Down".
Proof. unfold display_status. destruct (Z.eqb_spec st 1); by case_decide. Qed.

Lemma known_entries_cons m i ids :
  known_entries m (i :: ids)
  = match m !! i with
    | Some e => e :: known_entries m ids
    | None => known_entries m ids
    end.
Proof. done. Qed.

Lemma partition_fold m ids rs :
  dd_get (fold_left (partition_step m) ids rs) "Up" = dd_get rs "Up" ++ up_names m ids
  ∧ dd_get (fold_left (partition_step m) ids rs) "Down"
    = dd_get rs "Down" ++ down_names m ids.
Proof.
  revert rs. unfold up_names, down_names.
  induction ids as [|i ids IH]; intros rs; simpl fold_left.
  { unfold known_entries; simpl. by rewrite !app_nil_r. }
  destruct (IH (partition_step m rs i)) as [-> ->].
  rewrite known_entries_cons. unfold partition_step.
  destruct (m !! i) as [e|]; [|done].
  rewrite !dd_get_append, display_status_spec, !filter_cons.
  destruct (decide (entry_status e = 1)) as [He|He].
  - rewrite (decide_False (P := entry_status e ≠ 1)) by tauto.
    rewrite decide_True by done. rewrite decide_False by done.
    split; [|done]. rewrite <-app_assoc. reflexivity.
  - rewrite (decide_True (P := entry_status e ≠ 1)) by done.
    rewrite decide_False by done. rewrite decide_True by done.
    split; [done|]. rewrite <-app_assoc. reflexivity.
Qed.

Lemma item_list_text report names : item_list report names = report +:+ name_items names.
Proof. unfold item_list, name_items. by apply fold_left_appends. Qed.

Lemma detailed_region_text m report item :
  detailed_region m report item = report +:+ detailed_text m item.
Proof.
  destruct item as [region ids]. unfold detailed_region, detailed_text; simpl.
  destruct (partition_fold m ids ∅) as [-> ->].
  change (dd_get ∅ "Up") with (@nil string).
  change (dd_get ∅ "Down") with (@nil string). simpl.
  rewrite !item_list_text.
  destruct (truthy (up_names m ids)), (truthy (down_names m ids));
    by rewrite ?append_assoc, ?append_nil_r.
Qed.

Lemma report_text_split region_services m o :
  report_text region_services m o
  = report_head region_services m o +:+ report_tail region_services m.
Proof.
  unfold report_text, report_tail.
  rewrite (fold_left_appends _ _ (detailed_region_text m)).
  rewrite (fold_left_appends _ _ (listing_region_text m)).
  by rewrite !append_assoc.
Qed.

Lemma known_entries_filter m ids :
  known_entries m (filter (λ i, is_Some (m !! i)) ids) = known_entries m ids.
Proof.
  induction ids as [|i ids IH]; [done|].
  rewrite filter_cons, known_entries_cons. destruct (m !! i) as [e|] eqn:Hi.
  - rewrite decide_True by (by eexists).
    by rewrite known_entries_cons, Hi, IH.
  - rewrite decide_False; [done|]. by intros [? ?].
Qed.

(** ** Running the effectful functions *)

Lemma run_bind {A B} (m : M A) (k : A → M B) fx :
  (m ≫= k) fx
  = match m fx with
    | (Ret a, fx') => k a fx'
    | (Raise e, fx') => (Raise e, fx')
    end.
Proof. reflexivity. Qed.

Lemma run_log lvl message fx :
  ∃ fx', log_with_timestamp lvl message fx = (Ret (), fx')
         ∧ durable fx' = durable fx.
Proof. by eexists. Qed.

Lemma run_print s fx :
  ∃ fx', print s fx = (Ret (), fx') ∧ durable fx' = durable fx.
Proof. by eexists. Qed.

(** Steps through [log_with_timestamp ...;; k]. *)
Ltac step_log fx' Hd :=
  rewrite run_bind;
  match goal with
  | |- context [log_with_timestamp ?lvl ?msg ?fx] =>
      destruct (run_log lvl msg fx) as (fx' & -> & Hd)
  end.

Lemma Plain_fetch_data_run {A} url (r : http_result A) fx :
  ∃ fx', Plain.fetch_data url r fx = (Ret (fetched_of r), fx')
         ∧ durable fx' = durable fx.
Proof. destruct r; by eexists. Qed.

Lemma Logged_fetch_data_run {A} url (r : http_result A) fx :
  ∃ fx', Logged.fetch_data url r fx = (Ret (fetched_of r), fx')
         ∧ durable fx' = durable fx.
Proof. destruct r; by eexists. Qed.

Lemma Plain_get_region_services_run `{Builtins} w fx :
  ∃ fx', Plain.get_region_services w fx
         = (Ret (region_loop (fetched_of (hub_services_api w))), fx')
         ∧ durable fx' = durable fx.
Proof.
  unfold Plain.get_region_services. rewrite run_bind.
  destruct (Plain_fetch_data_run hub_url (hub_services_api w) fx) as (fx1 & -> & Hd1).
  by exists fx1.
Qed.

Lemma Logged_get_region_services_run `{Builtins} w fx :
  ∃ fx', Logged.get_region_services w fx
         = (Ret (region_loop (fetched_of (hub_services_api w))), fx')
         ∧ durable fx' = durable fx.
Proof.
  unfold Logged.get_region_services. step_log fx0 Hd0. rewrite run_bind.
  destruct (Logged_fetch_data_run hub_url (hub_services_api w) fx0) as (fx1 & -> & Hd1).
  step_log fx2 Hd2. exists fx2. split; [done|congruence].
Qed.

Lemma Plain_get_service_statuses_run w fx :
  ∃ fx', Plain.get_service_statuses w fx
         = (Ret (status_loop (fetched_of (statuses_api w))), fx')
         ∧ durable fx' = durable fx.
Proof.
  unfold Plain.get_service_statuses. rewrite run_bind.
  destruct (Plain_fetch_data_run statuses_url (statuses_api w) fx) as (fx1 & -> & Hd1).
  by exists fx1.
Qed.

Lemma Logged_get_service_statuses_run w fx :
  ∃ fx', Logged.get_service_statuses w fx
         = (Ret (status_loop (fetched_of (statuses_api w))), fx')
         ∧ durable fx' = durable fx.
Proof.
  unfold Logged.get_service_statuses. step_log fx0 Hd0. rewrite run_bind.
  destruct (Logged_fetch_data_run statuses_url (statuses_api w) fx0) as (fx1 & -> & Hd1).
  destruct (status_loop _) as [m o].
  step_log fx2 Hd2. step_log fx3 Hd3. exists fx3. split; [done|congruence].
Qed.

Lemma Plain_create_report_run `{Builtins} w fx :
  ∃ fx', Plain.create_report w fx = (Ret (report_of w), fx')
         ∧ durable fx' = durable fx.
Proof.
  unfold Plain.create_report, report_of. rewrite run_bind.
  destruct (Plain_get_region_services_run w fx) as (fx1 & -> & Hd1). rewrite run_bind.
  destruct (Plain_get_service_statuses_run w fx1) as (fx2 & -> & Hd2).
  destruct (status_loop _) as [m o].
  exists fx2. split; [done|congruence].
Qed.

Lemma Logged_create_report_run `{Builtins} w fx :
  ∃ fx', Logged.create_report w fx = (Ret (report_of w), fx')
         ∧ durable fx' = durable fx.
Proof.
  unfold Logged.create_report, report_of. step_log fx0 Hd0. rewrite run_bind.
  destruct (Logged_get_region_services_run w fx0) as (fx1 & -> & Hd1). rewrite run_bind.
  destruct (Logged_get_service_statuses_run w fx1) as (fx2 & -> & Hd2).
  destruct (status_loop _) as [m o].
  step_log fx3 Hd3. exists fx3. split; [done|congruence].
Qed.

(** ** The SMTP session *)

Lemma with_SMTP_run w host port use_tls user password msg fx :
  ∃ fx', with_SMTP w host port (smtp_session w use_tls user password msg) fx
         = (result_of (session_failure w use_tls), fx')
         ∧ files fx' = files fx ∧ stdout fx' = stdout fx ∧ log fx' = log fx.
Proof.
  unfold with_SMTP, smtp_exit, smtp_session, session_failure, body_failure.
  rewrite run_bind. unfold smtp_do at 1.
  destruct (on_connect (smtp w)); [by eexists|].
  rewrite !run_bind. unfold smtp_do.
  destruct use_tls, (on_starttls (smtp w)), (on_login (smtp w)),
    (on_send_message (smtp w)), (on_quit (smtp w)); by eexists.
Qed.

Lemma int_getenv_run `{Builtins} w fx :
  match port_failure w with
  | Some e => int_getenv w "SMTP_PORT" fx = (Raise e, fx)
  | None => ∃ port, int_getenv w "SMTP_PORT" fx = (Ret port, fx)
  end.
Proof.
  unfold port_failure, int_getenv.
  destruct (environ w !! "SMTP_PORT") as [s|]; [|done].
  destruct (py_int s) as [port|]; [by exists port|done].
Qed.

Lemma Plain_send_email_run `{Builtins} w subject body recipients fx :
  ∃ fx', Plain.send_email w subject body recipients fx
         = (result_of (plain_send_failure w), fx')
         ∧ files fx' = files fx.
Proof.
  unfold Plain.send_email, plain_send_failure. rewrite run_bind.
  pose proof (int_getenv_run w fx) as Hport.
  destruct (port_failure w) as [e|].
  - rewrite Hport. by exists fx.
  - destruct Hport as [port ->].
    destruct (with_SMTP_run w (environ w !! "SMTP_SERVER") port (use_tls_of w)
                (environ w !! "SMTP_USERNAME") (environ w !! "SMTP_PASSWORD")
                {| msg_From := environ w !! "SMTP_USERNAME";
                   msg_To := join ", " recipients;
                   msg_Subject := subject; msg_html := body |} fx)
      as (fx1 & -> & Hf & _). by exists fx1.
Qed.

Lemma Logged_send_email_run `{Builtins} w subject body recipients fx :
  ∃ fx', Logged.send_email w subject body recipients fx
         = (result_of (port_failure w), fx')
         ∧ files fx' = files fx.
Proof.
  unfold Logged.send_email. step_log fx0 Hd0. rewrite run_bind.
  assert (Hf0 : files fx0 = files fx) by (by injection Hd0).
  pose proof (int_getenv_run w fx0) as Hport.
  destruct (port_failure w) as [e|].
  - rewrite Hport. by exists fx0.
  - destruct Hport as [port ->]. unfold try_except. rewrite run_bind.
    destruct (with_SMTP_run w (environ w !! "SMTP_SERVER") port (use_tls_of w)
                (environ w !! "SMTP_USERNAME") (environ w !! "SMTP_PASSWORD")
                {| msg_From := environ w !! "SMTP_USERNAME";
                   msg_To := join ", " recipients;
                   msg_Subject := subject; msg_html := body |} fx0)
      as (fx1 & -> & Hf1 & _).
    destruct (session_failure w (use_tls_of w)) as [e|]; simpl.
    + eexists. split; [reflexivity|]. simpl. congruence.
    + eexists. split; [reflexivity|]. simpl. congruence.
Qed.

(** ** Whole runs *)

Lemma recipients_of_run w fx :
  recipients_of w fx
  = match environ w !! "EMAIL_RECIPIENTS" with
    | None => (Raise no_split, fx)
    | Some s => (Ret (split "," s), fx)
    end.
Proof. unfold recipients_of. by destruct (environ w !! "EMAIL_RECIPIENTS"). Qed.

Lemma write_file_run path text fx :
  ∃ fx', write_file path text fx = (Ret (), fx')
         ∧ files fx' = <[path := text]> (files fx)
         ∧ smtp_trace fx' = smtp_trace fx.
Proof. by eexists. Qed.

Lemma Plain_main_run `{Builtins} w fx :
  ∃ fx', Plain.main w fx = (result_of (plain_main_failure w), fx')
         ∧ files fx' = <[report_path := report_of w]> (files fx)
         ∧ (environ w !! "EMAIL_RECIPIENTS" = None → smtp_trace fx' = smtp_trace fx).
Proof.
  unfold Plain.main, plain_main_failure. rewrite run_bind.
  destruct (Plain_create_report_run w fx) as (fx1 & -> & Hd1). rewrite run_bind.
  destruct (run_print (report_of w) fx1) as (fx2 & -> & Hd2). rewrite run_bind.
  destruct (write_file_run report_path (report_of w) fx2) as (fx3 & -> & Hf3 & Ht3).
  injection Hd1 as Hf1 Ht1. injection Hd2 as Hf2 Ht2.
  rewrite run_bind, recipients_of_run.
  destruct (environ w !! "EMAIL_RECIPIENTS") as [s|].
  - destruct (Plain_send_email_run w "Citrix Service Status Report" (report_of w)
                (split "," s) fx3) as (fx4 & -> & Hf4).
    exists fx4. split; [done|]. split; [congruence|done].
  - exists fx3. split; [done|]. split; [congruence|]. intros _. congruence.
Qed.

Lemma Logged_main_run `{Builtins} w fx :
  ∃ fx', Logged.main w fx = (result_of (logged_main_failure w), fx')
         ∧ files fx' = <[report_path := report_of w]> (files fx)
         ∧ (environ w !! "EMAIL_RECIPIENTS" = None → smtp_trace fx' = smtp_trace fx).
Proof.
  unfold Logged.main, logged_main_failure. step_log fx0 Hd0. rewrite run_bind.
  destruct (Logged_create_report_run w fx0) as (fx1 & -> & Hd1).
  step_log fx2 Hd2. rewrite run_bind.
  destruct (write_file_run report_path (report_of w) fx2) as (fx3 & -> & Hf3 & Ht3).
  step_log fx4 Hd4.
  injection Hd0 as Hf0 Ht0. injection Hd1 as Hf1 Ht1.
  injection Hd2 as Hf2 Ht2. injection Hd4 as Hf4 Ht4.
  rewrite run_bind, recipients_of_run.
  destruct (environ w !! "EMAIL_RECIPIENTS") as [s|].
  - rewrite run_bind.
    destruct (Logged_send_email_run w "Citrix Service Status Report" (report_of w)
                (split "," s) fx4) as (fx5 & -> & Hf5).
    destruct (port_failure w) as [e|]; simpl.
    + exists fx5. split; [done|]. split; [congruence|done].
    + eexists. split; [reflexivity|]. simpl. split; [congruence|done].
  - exists fx4. split; [done|]. split; [congruence|]. intros _. congruence.
Qed.

(** ** What the summary says *)

Lemma all_up_iff_counts l :
  all_up (overall_after l) = true
  ↔ count_status_2 (overall_after l) = 0%nat ∧ count_status_3 (overall_after l) = 0%nat.
Proof.
  destruct (overall_after_counts l) as (_ & E2 & E3 & _).
  rewrite E2, E3, !count_of_zero, <-(not_false_iff_true (all_up _)), all_up_after.
  rewrite <-Forall_Exists_neg, !Forall_fmap, !Forall_forall. unfold compose. split.
  - intros Hn. split; intros s Hs ?; apply (Hn s Hs); tauto.
  - intros [H2 H3] s Hs [?|?]; [by apply (H2 s)|by apply (H3 s)].
Qed.

(** Looks for a piece of the summary, last line first. *)
Ltac in_head :=
  solve [ apply contains_app_r; vm_compute; reflexivity
        | apply contains_app_l; in_head ].

Lemma head_in_report s region_services m o :
  contains s (report_head region_services m o) = true →
  contains s (report_text region_services m o) = true.
Proof. rewrite report_text_split. apply contains_app_l. Qed.

(** C4: when both fetches fail, so that [fetch_data] returns the empty
    mapping twice, the report says "Total number of regions: 0", "Total
    number of services: 0" and "Overall status: All services up"; it is the
    very report of two successful fetches that list no region and no
    service group. *)
Theorem failed_fetch_looks_healthy `{Builtins} (w : world) (fx : effects) (e1 e2 : string) :
  hub_services_api w = RequestException e1 →
  statuses_api w = RequestException e2 →
  ∃ report fx',
    Logged.create_report w fx = (Ret report, fx')
    ∧ contains "Total number of regions: 0" report = true
    ∧ contains "Total number of services: 0" report = true
    ∧ contains "Overall status: All services up" report = true
    ∧ ∀ w', hub_services_api w' = Response [] →
            statuses_api w' = Response {| groups := Some [] |} →
            report_of w' = report.
Proof.
  intros Hhub Hst.
  destruct (Logged_create_report_run w fx) as (fx' & Hrun & _).
  exists (report_of w), fx'. split; [done|].
  unfold report_of. rewrite Hhub, Hst.
  change (region_loop (fetched_of (RequestException e1))) with (@nil (string * list Z)).
  change (status_loop (fetched_of (RequestException e2)))
    with (∅ : gmap Z service_entry, overall_init).
  split; [vm_compute; reflexivity|].
  split; [vm_compute; reflexivity|].
  split; [vm_compute; reflexivity|].
  intros w' -> ->. reflexivity.
Qed.

(** C8: with two regions and three services, two of status 1 and one of
    status 3, the report holds "Total number of regions: 2", "Total number
    of services: 3", "Services up: 2", "Services down: 1" and "Some
    services are down". *)
Theorem fixture_report_summary `{Builtins} (w : world) (fx : effects)
    (hub : list region_rec) (doc : statuses_doc) :
  hub_services_api w = Response hub →
  statuses_api w = Response doc →
  distinct (map name hub) = 2%nat →
  distinct (map service_id (walked (Body doc))) = 3%nat →
  length (walked (Body doc)) = 3%nat →
  count_of 1 (map status (walked (Body doc))) = 2%nat →
  count_of 3 (map status (walked (Body doc))) = 1%nat →
  ∃ report fx',
    Logged.create_report w fx = (Ret report, fx')
    ∧ contains "Total number of regions: 2" report = true
    ∧ contains "Total number of services: 3" report = true
    ∧ contains "Services up: 2" report = true
    ∧ contains "Services down: 1" report = true
    ∧ contains "Some services are down" report = true.
Proof.
  intros Hhub Hst Hregions Hids _ Hup Hdown.
  destruct (Logged_create_report_run w fx) as (fx' & Hrun & _).
  exists (report_of w), fx'. split; [done|].
  unfold report_of. rewrite Hhub, Hst. simpl fetched_of.
  pose proof (region_loop_length (Body hub)) as Hlen. simpl region_records in Hlen.
  pose proof (status_loop_size (Body doc)) as Hsize.
  rewrite Hregions in Hlen. rewrite Hids in Hsize.
  rewrite status_loop_overall.
  destruct (overall_after_counts (walked (Body doc))) as (E1 & _ & E3 & _).
  rewrite Hup in E1. rewrite Hdown in E3.
  assert (Hall : all_up (overall_after (walked (Body doc))) = false).
  { apply not_true_iff_false. intros [_ H3]%all_up_iff_counts. congruence. }
  assert (Hhead : ∀ s,
            contains s (report_head (region_loop (Body hub))
                          (fst (status_loop (Body doc)))
                          (overall_after (walked (Body doc)))) = true →
            contains s (report_text (region_loop (Body hub))
                          (fst (status_loop (Body doc)))
                          (overall_after (walked (Body doc)))) = true)
    by (intros s; apply head_in_report).
  unfold report_head in Hhead. rewrite Hlen, Hsize, E1, E3, Hall in Hhead.
  split; [apply Hhead; in_head|].
  split; [apply Hhead; in_head|].
  split; [apply Hhead; in_head|].
  split; [apply Hhead; in_head|].
  apply Hhead; in_head.
Qed.

(** C7: for a service id of a region that is no key of the status mapping,
    the report is built all the same and holds nothing for that id: the
    list of a region in "Services by Region" has one item per known id and
    nothing else, the same holds for the "Up" and "Down" lists, and the
    whole report is the one built without the unknown ids. *)
Theorem unknown_services_skipped `{Builtins} :
  (∀ w fx, ∃ report fx', Logged.create_report w fx = (Ret report, fx'))
  ∧ (∀ w fx, ∃ report fx', Plain.create_report w fx = (Ret report, fx'))
  ∧ (∀ m report i, m !! i = None → listing_step m report i = report)
  ∧ (∀ m region_status i, m !! i = None → partition_step m region_status i = region_status)
  ∧ (∀ m report region ids,
       listing_region m report (region, ids)
       = report +:+ "<h3>" +:+ region +:+ ":</h3>" +:+ "<ul>"
           +:+ flat (map listing_item (known_entries m ids)) +:+ "</ul>")
  ∧ (∀ region_services m o,
       report_text region_services m o = report_text (prune m region_services) m o).
Proof.
  split; [|split; [|split; [|split; [|split]]]].
  - intros w fx. destruct (Logged_create_report_run w fx) as (fx' & Hrun & _). eauto.
  - intros w fx. destruct (Plain_create_report_run w fx) as (fx' & Hrun & _). eauto.
  - intros m report i Hi. unfold listing_step. by rewrite Hi.
  - intros m region_status i Hi. unfold partition_step. by rewrite Hi.
  - intros m report region ids. apply listing_region_text.
  - intros region_services m o. rewrite !report_text_split.
    unfold report_head, report_tail, prune. rewrite length_map, !map_map.
    assert (Hl : ∀ item, listing_text m (fst item, filter (λ i, is_Some (m !! i)) (snd item))
                         = listing_text m item).
    { intros item. unfold listing_text. simpl. by rewrite known_entries_filter. }
    assert (Hd : ∀ item, detailed_text m (fst item, filter (λ i, is_Some (m !! i)) (snd item))
                         = detailed_text m item).
    { intros item. unfold detailed_text, up_names, down_names. simpl.
      by rewrite known_entries_filter. }
    rewrite (map_ext _ _ Hl), (map_ext _ _ Hd). done.
Qed.

(** C10: the status mapping keeps the last record of an id while every
    record is counted, so when an id occurs twice the counters can sum to
    more than the size of the mapping, and the report then shows more
    services up, with issues or down than it shows in total. *)
Theorem duplicate_ids_counted_twice :
  (∀ data i,
     fst (status_loop data) !! i = entry_of <$> last_with_id i (walked data))
  ∧ (∀ data,
       size (fst (status_loop data)) = distinct (map service_id (walked data))
       ∧ (Forall (λ s, recognised (status s)) (walked data) →
          counted (snd (status_loop data)) = length (walked data)))
  ∧ ∃ data,
      let '(service_statuses, overall_status) := status_loop data in
      let report := report_text [] service_statuses overall_status in
      ¬ NoDup (map service_id (walked data))
      ∧ (size service_statuses < counted overall_status)%nat
      ∧ contains "Total number of services: 1<" report = true
      ∧ contains "Services up: 1<" report = true
      ∧ contains "Services down: 1<" report = true.
Proof.
  split; [apply status_loop_lookup|]. split.
  - intros data. split; [apply status_loop_size|].
    intros Hrec. rewrite status_loop_overall.
    destruct (overall_after_counts (walked data)) as (E1 & E2 & E3 & _).
    unfold counted. rewrite E1, E2, E3, <-(length_map status).
    apply count_of_sum_eq. by apply Forall_fmap.
  - exists (Body {| groups := Some [ {| services :=
        [ {| service_id := 7; service_name := "Gateway"; status := 1 |};
          {| service_id := 7; service_name := "Gateway"; status := 3 |} ] |} ] |}).
    split; [|repeat split; vm_compute; (reflexivity || lia)].
    simpl. intros Hnd. apply NoDup_cons in Hnd as [Hnin _].
    apply Hnin, list_elem_of_here.
Qed.

(** ** Email failures and missing configuration *)

(** [src/main.py]: once the port is read, [send_email] returns normally
    whatever the SMTP session raises, and leaves the files alone. *)
Lemma logged_send_email_swallows `{Builtins} w subject body recipients fx :
  port_failure w = None →
  ∃ fx', Logged.send_email w subject body recipients fx = (Ret (), fx')
         ∧ files fx' = files fx.
Proof.
  intros Hport.
  destruct (Logged_send_email_run w subject body recipients fx) as (fx' & Hrun & Hf).
  rewrite Hport in Hrun. by exists fx'.
Qed.

(** [src/main.py]: the exception of a failed session is logged as an error. *)
Lemma logged_send_email_logs_failure `{Builtins} w subject body recipients fx e :
  port_failure w = None →
  session_failure w (use_tls_of w) = Some e →
  log (snd (Logged.send_email w subject body recipients fx))
  = log fx ++ [(INFO, "Sending email to " +:+ join ", " recipients);
               (ERROR, "Error sending email: " +:+ exn_str e)].
Proof.
  intros Hport Hsess. unfold Logged.send_email. rewrite run_bind.
  unfold log_with_timestamp at 1. rewrite run_bind.
  match goal with |- context [int_getenv w "SMTP_PORT" ?fx1] =>
    pose proof (int_getenv_run w fx1) as Hrun; set (fx0 := fx1) in * end.
  rewrite Hport in Hrun. destruct Hrun as [port ->].
  unfold try_except. rewrite run_bind.
  destruct (with_SMTP_run w (environ w !! "SMTP_SERVER") port (use_tls_of w)
              (environ w !! "SMTP_USERNAME") (environ w !! "SMTP_PASSWORD")
              {| msg_From := environ w !! "SMTP_USERNAME";
                 msg_To := join ", " recipients;
                 msg_Subject := subject; msg_html := body |} fx0)
    as (fx1 & -> & _ & _ & Hl).
  rewrite Hsess. simpl. rewrite Hl. subst fx0. simpl.
  by rewrite <-app_assoc.
Qed.

(** Both variants write the same file. *)
Lemma variants_write_same_file `{Builtins} w fx :
  files (snd (Plain.main w fx)) = files (snd (Logged.main w fx))
  ∧ files (snd (Logged.main w fx)) !! report_path = Some (report_of w).
Proof.
  destruct (Plain_main_run w fx) as (fx1 & -> & Hf1 & _).
  destruct (Logged_main_run w fx) as (fx2 & -> & Hf2 & _).
  simpl. rewrite Hf1, Hf2. split; [done|]. apply lookup_insert_eq.
Qed.

(** The variants end differently exactly when the configuration is read
    without error and the SMTP session raises. *)
Lemma variants_differ_iff `{Builtins} w fx :
  fst (Plain.main w fx) ≠ fst (Logged.main w fx)
  ↔ is_Some (environ w !! "EMAIL_RECIPIENTS")
    ∧ port_failure w = None
    ∧ is_Some (session_failure w (use_tls_of w)).
Proof.
  destruct (Plain_main_run w fx) as (fx1 & -> & _).
  destruct (Logged_main_run w fx) as (fx2 & -> & _).
  unfold plain_main_failure, logged_main_failure, plain_send_failure. simpl.
  destruct (environ w !! "EMAIL_RECIPIENTS") as [s|].
  - destruct (port_failure w) as [e|].
    + split; [done|]. by intros (_ & ? & _).
    + destruct (session_failure w (use_tls_of w)) as [e|]; simpl.
      * split; [by eauto|done].
      * split; [done|]. by intros (_ & _ & [? ?]).
  - split; [done|]. by intros ([? ?] & _).
Qed.

(** C9: with [EMAIL_RECIPIENTS] unset the run ends in an uncaught
    [AttributeError], after the report file is written and before any SMTP
    step; this holds for both variants. *)
Theorem missing_recipients_fatal `{Builtins} (w : world) (fx : effects) :
  environ w !! "EMAIL_RECIPIENTS" = None →
  (∃ fx', Logged.main w fx = (Raise no_split, fx')
          ∧ exit_code (fst (Logged.main w fx)) = 1
          ∧ files fx' !! report_path = Some (report_of w)
          ∧ smtp_trace fx' = smtp_trace fx)
  ∧ (∃ fx', Plain.main w fx = (Raise no_split, fx')
            ∧ exit_code (fst (Plain.main w fx)) = 1
            ∧ files fx' !! report_path = Some (report_of w)
            ∧ smtp_trace fx' = smtp_trace fx).
Proof.
  intros Hunset. split.
  - destruct (Logged_main_run w fx) as (fx' & Hrun & Hf & Ht).
    unfold logged_main_failure in Hrun. rewrite Hunset in Hrun.
    exists fx'. rewrite Hrun, Hf, lookup_insert_eq. auto.
  - destruct (Plain_main_run w fx) as (fx' & Hrun & Hf & Ht).
    unfold plain_main_failure in Hrun. rewrite Hunset in Hrun.
    exists fx'. rewrite Hrun, Hf, lookup_insert_eq. auto.
Qed.

(** ** Concrete runs *)

(** C2 at a run where the server rejects the login: [src/Main.py] ends in
    the uncaught exception, [src/main.py] ends normally; the report and the
    file are the same. *)
Theorem variants_differ_on_login_failure :
  fst (@Plain.main first_seen w_login_rejected no_effects) = Raise login_rejected
  ∧ fst (@Logged.main first_seen w_login_rejected no_effects) = Ret ()
  ∧ exit_code (fst (@Plain.main first_seen w_login_rejected no_effects))
    ≠ exit_code (fst (@Logged.main first_seen w_login_rejected no_effects))
  ∧ files (snd (@Plain.main first_seen w_login_rejected no_effects))
    = files (snd (@Logged.main first_seen w_login_rejected no_effects)).
Proof.
  split; [vm_compute; reflexivity|].
  split; [vm_compute; reflexivity|].
  split; [vm_compute; discriminate|].
  vm_compute; reflexivity.
Qed.

(** C3 at a run where the SMTP connection is refused: [send_email] of
    [src/Main.py] lets the exception out and the run ends with it, while
    [send_email] of [src/main.py] logs it and returns. *)
Theorem plain_send_email_lets_errors_out :
  fst (@Plain.send_email first_seen w_smtp_refused "Citrix Service Status Report"
         "<html><body></body></html>" ["ops@example.com"] no_effects)
  = Raise connection_refused
  ∧ fst (@Plain.main first_seen w_smtp_refused no_effects) = Raise connection_refused
  ∧ exit_code (fst (@Plain.main first_seen w_smtp_refused no_effects)) = 1
  ∧ @Logged.send_email first_seen w_smtp_refused "Citrix Service Status Report"
      "<html><body></body></html>" ["ops@example.com"] no_effects
    = (Ret (),
       {| stdout := [];
          log := [(INFO, "Sending email to ops@example.com");
                  (ERROR, "Error sending email: [Errno 111] Connection refused")];
          files := ∅;
          smtp_trace := [Connect (Some "smtp.example.com") 587] |})
  ∧ exit_code (fst (@Logged.main first_seen w_smtp_refused no_effects)) = 0.
Proof.
  split; [vm_compute; reflexivity|].
  split; [vm_compute; reflexivity|].
  split; [vm_compute; reflexivity|].
  split; vm_compute; reflexivity.
Qed.

Lemma failed_fetch_looks_healthy_witness :
  hub_services_api w_fetch_failed = RequestException "503 Server Error"
  ∧ statuses_api w_fetch_failed = RequestException "503 Server Error"
  ∧ ∃ report fx',
      @Logged.create_report first_seen w_fetch_failed no_effects = (Ret report, fx')
      ∧ contains "Total number of regions: 0" report = true
      ∧ contains "Total number of services: 0" report = true
      ∧ contains "Overall status: All services up" report = true
      ∧ ∀ w', hub_services_api w' = Response [] →
              statuses_api w' = Response {| groups := Some [] |} →
              @report_of first_seen w' = report.
Proof.
  split; [reflexivity|]. split; [reflexivity|].
  apply (@failed_fetch_looks_healthy first_seen w_fetch_failed no_effects
           "503 Server Error" "503 Server Error"); reflexivity.
Defined.

Lemma fixture_report_summary_witness :
  distinct (map name fixture_hub) = 2%nat
  ∧ distinct (map service_id (walked (Body fixture_doc))) = 3%nat
  ∧ length (walked (Body fixture_doc)) = 3%nat
  ∧ count_of 1 (map status (walked (Body fixture_doc))) = 2%nat
  ∧ count_of 3 (map status (walked (Body fixture_doc))) = 1%nat
  ∧ ∃ report fx',
      @Logged.create_report first_seen w_fixture no_effects = (Ret report, fx')
      ∧ contains "Total number of regions: 2" report = true
      ∧ contains "Total number of services: 3" report = true
      ∧ contains "Services up: 2" report = true
      ∧ contains "Services down: 1" report = true
      ∧ contains "Some services are down" report = true.
Proof.
  do 5 (split; [vm_compute; reflexivity|]).
  apply (@fixture_report_summary first_seen w_fixture no_effects fixture_hub fixture_doc);
    vm_compute; reflexivity.
Defined.

Lemma missing_recipients_fatal_witness :
  environ w_no_recipients !! "EMAIL_RECIPIENTS" = None
  ∧ (∃ fx', @Logged.main first_seen w_no_recipients no_effects = (Raise no_split, fx')
            ∧ exit_code (fst (@Logged.main first_seen w_no_recipients no_effects)) = 1
            ∧ files fx' !! report_path = Some (@report_of first_seen w_no_recipients)
            ∧ smtp_trace fx' = smtp_trace no_effects)
  ∧ (∃ fx', @Plain.main first_seen w_no_recipients no_effects = (Raise no_split, fx')
            ∧ exit_code (fst (@Plain.main first_seen w_no_recipients no_effects)) = 1
            ∧ files fx' !! report_path = Some (@report_of first_seen w_no_recipients)
            ∧ smtp_trace fx' = smtp_trace no_effects).
Proof.
  split; [vm_compute; reflexivity|].
  apply (@missing_recipients_fatal first_seen w_no_recipients no_effects).
  vm_compute; reflexivity.
Defined.

(** ** The model at work *)

Example report_when_fetches_fail :
  @report_of first_seen w_fetch_failed
  = "<html><body><h1>Citrix Service Status Summary</h1><h2>Summary:</h2><p>Total number of regions: 0</p><p>Total number of services: 0</p><p>Overall status: All services up</p><h2>Overall Status:</h2><p>All services up: True</p><p>Services up: 0</p><p>Services with issues: 0</p><p>Services down: 0</p><h2>Services by Region:</h2><h2>Detailed Status by Region:</h2></body></html>".
Proof. vm_compute. reflexivity. Qed.

(** Id 4 of region US has no status record: it is nowhere in the report. *)
Example report_of_fixture :
  @report_of first_seen w_fixture
  = "<html><body><h1>Citrix Service Status Summary</h1><h2>Summary:</h2><p>Total number of regions: 2</p><p>Total number of services: 3</p><p>Overall status: Some services are down</p><h2>Overall Status:</h2><p>All services up: False</p><p>Services up: 2</p><p>Services with issues: 0</p><p>Services down: 1</p><h2>Services by Region:</h2><h3>EU:</h3><ul><li>Gateway: Up</li><li>Directory: Up</li></ul><h3>US:</h3><ul><li>Directory: Up</li><li>Workspace: Down</li></ul><h2>Detailed Status by Region:</h2><h3>EU:</h3><p>Services Up: 2</p><p>Services Down: 0</p><h4>Services Up:</h4><ul><li>Gateway</li><li>Directory</li></ul><h3>US:</h3><p>Services Up: 1</p><p>Services Down: 1</p><h4>Services Up:</h4><ul><li>Directory</li></ul><h4>Services Down:</h4><ul><li>Workspace</li></ul></body></html>".
Proof. vm_compute. reflexivity. Qed.

(** A later record of the same name replaces the set and keeps the place. *)
Example region_overwrite :
  @region_loop first_seen
    (Body [ {| name := "EU"; service_ids := [1; 2] |};
            {| name := "US"; service_ids := [3] |};
            {| name := "EU"; service_ids := [9; 9] |} ])
  = [("EU", [9]); ("US", [3])].
Proof. vm_compute. reflexivity. Qed.

(** Codes outside 1, 2, 3 are stored but not counted. *)
Example unknown_code_not_counted :
  snd (status_loop (Body {| groups := Some [ {| services :=
         [ {| service_id := 1; service_name := "Gateway"; status := 1 |};
           {| service_id := 2; service_name := "Directory"; status := 4 |} ] |} ] |}))
  = {| all_up := true; count_status_1 := 1; count_status_2 := 0; count_status_3 := 0 |}.
Proof. vm_compute. reflexivity. Qed.

Example all_codes_recognised_in_fixture :
  Forall (λ s, recognised (status s)) (walked (Body fixture_doc))
  ∧ counted (snd (status_loop (Body fixture_doc))) = length (walked (Body fixture_doc)).
Proof.
  split; [|vm_compute; reflexivity].
  repeat constructor; unfold recognised; simpl; lia.
Qed.

Example successful_run :
  fst (@Logged.main first_seen w_fixture no_effects) = Ret ()
  ∧ fst (@Plain.main first_seen w_fixture no_effects) = Ret ()
  ∧ smtp_trace (snd (@Logged.main first_seen w_fixture no_effects))
    = [ Connect (Some "smtp.example.com") 587; StartTLS;
        Login (Some "reports@example.com") (Some "secret");
        SendMessage {| msg_From := Some "reports@example.com";
                       msg_To := "ops@example.com, noc@example.com";
                       msg_Subject := "Citrix Service Status Report";
                       msg_html := @report_of first_seen w_fixture |};
        Quit ].
Proof.
  split; [vm_compute; reflexivity|].
  split; vm_compute; reflexivity.
Qed.

Example split_and_lower :
  split "," "a@x,,b@y," = ["a@x"; ""; "b@y"; ""] ∧ lower "TrUe" = "true".
Proof. split; vm_compute; reflexivity. Qed.

(** * Further properties of the two scripts *)

(** ** Order of the regions *)

Lemma filter_not_in_nil (U : list string) : filter (λ y, y ∉ @nil string) U = U.
Proof.
  induction U as [|u U IH]; [done|].
  rewrite filter_cons, decide_True by apply not_elem_of_nil. by rewrite IH.
Qed.

Lemma filter_not_in_absorb (K U : list string) k :
  k ∈ K →
  filter (λ y, y ∉ K) (filter (λ y, y ≠ k) U) = filter (λ y, y ∉ K) U.
Proof.
  intros Hk. induction U as [|u U IH]; [done|].
  rewrite (filter_cons (λ y, y ≠ k)), (filter_cons (λ y, y ∉ K) u U).
  destruct (decide (u ≠ k)) as [Hu|Hu].
  - rewrite filter_cons, IH. done.
  - destruct (decide (u ∉ K)) as [Hn|Hn]; [|done].
    destruct (decide (u = k)) as [->|?]; [done|]. by destruct Hu.
Qed.

Lemma filter_not_in_snoc (K U : list string) k :
  filter (λ y, y ∉ K ++ [k]) U = filter (λ y, y ∉ K) (filter (λ y, y ≠ k) U).
Proof.
  induction U as [|u U IH]; [done|].
  rewrite (filter_cons (λ y, y ≠ k)), (filter_cons (λ y, y ∉ K ++ [k])).
  destruct (decide (u ≠ k)) as [Hu|Hu].
  - rewrite filter_cons, IH.
    destruct (decide (u ∉ K)) as [Hn|Hn].
    + rewrite decide_True; [done|].
      rewrite elem_of_app, list_elem_of_singleton. tauto.
    + rewrite decide_False; [done|]. rewrite elem_of_app. tauto.
  - rewrite decide_False; [done|].
    rewrite elem_of_app, list_elem_of_singleton.
    destruct (decide (u = k)); tauto.
Qed.

Lemma fold_region_step_keys `{Builtins} l d :
  map fst (fold_left region_step l d)
  = map fst d ++ filter (λ k, k ∉ map fst d) (first_occurrences (map name l)).
Proof.
  revert d. induction l as [|r l IH]; intros d; simpl.
  { by rewrite app_nil_r. }
  rewrite IH. unfold region_step. rewrite dict_keys_setitem.
  destruct (decide (name r ∈ map fst d)) as [Hin|Hin].
  - rewrite filter_cons, decide_False by tauto.
    by rewrite filter_not_in_absorb.
  - rewrite filter_cons, decide_True by done.
    rewrite filter_not_in_snoc, <-app_assoc. done.
Qed.

(** X1: the regions stand in the mapping, and so in both per-region
    sections of the report, in the order in which the response first names
    them; a later record of a known name does not move it. *)
Theorem regions_in_order_of_first_occurrence `{Builtins} (data : fetched (list region_rec))
    (m : gmap Z service_entry) :
  map fst (region_loop data) = first_occurrences (map name (region_records data))
  ∧ ∀ o, report_text (region_loop data) m o
         = report_head (region_loop data) m o
           +:+ "<h2>Services by Region:</h2>"
           +:+ flat (map (listing_text m) (region_loop data))
           +:+ "<h2>Detailed Status by Region:</h2>"
           +:+ flat (map (detailed_text m) (region_loop data))
           +:+ "</body></html>".
Proof.
  split; [|intros o; by rewrite report_text_split].
  unfold region_loop. rewrite fold_region_step_keys. simpl.
  apply filter_not_in_nil.
Qed.

(** ** The recipients *)

Lemma split_not_nil sep s : split sep s ≠ [].
Proof.
  destruct s as [|c s]; simpl; [done|].
  destruct (Ascii.eqb c sep); [done|]. by destruct (split sep s).
Qed.

Lemma join_cons sep x y l : join sep (x :: y :: l) = x +:+ sep +:+ join sep (y :: l).
Proof. done. Qed.

(** X2: [main] cuts [EMAIL_RECIPIENTS] at every comma and nowhere else:
    joined with commas the recipients give the value back, there is one
    recipient more than there are commas (an empty value gives one empty
    recipient), and no recipient holds a comma. *)
Theorem recipients_cut_at_commas (s : string) :
  join "," (split "," s) = s
  ∧ length (split "," s) = S (count_char "," s)
  ∧ Forall (λ r, count_char "," r = 0%nat) (split "," s).
Proof.
  induction s as [|c s (IHj & IHl & IHf)]; [by repeat constructor|].
  cbn [split count_char]. pose proof (split_not_nil "," s) as Hne.
  destruct (Ascii.eqb_spec c ",") as [->|Hc];
    destruct (split "," s) as [|x l] eqn:Hs; try done; cbn [length] in *.
  - rewrite join_cons, IHj.
    split; [done|]. split; [lia|]. by constructor.
  - apply Forall_cons in IHf as [Hx Hl]. split; [|split; [lia|]].
    + destruct l as [|y l]; [by rewrite <-IHj|].
      rewrite join_cons, append_cons. rewrite join_cons in IHj. by rewrite IHj.
    + constructor; [|done]. cbn [count_char].
      destruct (Ascii.eqb_spec c ","); [done|]. by rewrite Hx.
Qed.

(** ** The summary and the records *)

(** X3: when the service ids of a response are pairwise distinct and every
    status code is 1, 2 or 3, the summary adds up: "Total number of
    services" is the number of records and equals the sum of the three
    counters. *)
Theorem summary_adds_up (data : fetched statuses_doc) :
  NoDup (map service_id (walked data)) →
  Forall (λ s, recognised (status s)) (walked data) →
  size (fst (status_loop data)) = length (walked data)
  ∧ counted (snd (status_loop data)) = size (fst (status_loop data)).
Proof.
  intros Hnd Hrec.
  rewrite status_loop_size, (distinct_NoDup (map service_id (walked data)) Hnd), length_map.
  split; [done|]. rewrite status_loop_overall.
  destruct (overall_after_counts (walked data)) as (E1 & E2 & E3 & _).
  unfold counted. rewrite E1, E2, E3, <-(length_map status).
  apply count_of_sum_eq. by apply Forall_fmap.
Qed.

Lemma summary_adds_up_witness :
  NoDup (map service_id (walked (Body fixture_doc)))
  ∧ Forall (λ s, recognised (status s)) (walked (Body fixture_doc))
  ∧ size (fst (status_loop (Body fixture_doc))) = length (walked (Body fixture_doc))
  ∧ counted (snd (status_loop (Body fixture_doc)))
    = size (fst (status_loop (Body fixture_doc))).
Proof.
  assert (Hnd : NoDup (map service_id (walked (Body fixture_doc)))).
  { refine (bool_decide_unpack (NoDup _) _). vm_compute. exact I. }
  assert (Hrec : Forall (λ s, recognised (status s)) (walked (Body fixture_doc))).
  { repeat constructor; unfold recognised; simpl; lia. }
  split; [exact Hnd|]. split; [exact Hrec|].
  exact (summary_adds_up (Body fixture_doc) Hnd Hrec).
Defined.

(** ** The per-region lists *)

Lemma known_entries_length m ids : length (known_entries m ids) = length (known_ids m ids).
Proof.
  unfold known_ids. induction ids as [|i ids IH]; [done|].
  rewrite known_entries_cons, filter_cons. destruct (m !! i) as [e|] eqn:Hi.
  - rewrite decide_True by (by eexists). simpl. by rewrite IH.
  - rewrite decide_False by (by intros [? ?]). done.
Qed.

Lemma up_down_lengths m ids :
  (length (up_names m ids) + length (down_names m ids))%nat = length (known_entries m ids).
Proof.
  unfold up_names, down_names. rewrite !length_fmap, <-length_app.
  apply Permutation_length, filter_app_complement.
Qed.

(** X4: in "Detailed Status by Region" the two counts of a region add up to
    the number of its ids that have a status record, which is at most the
    number of its ids. *)
Theorem detailed_counts_add_up (m : gmap Z service_entry) (ids : list Z) :
  let region_status := fold_left (partition_step m) ids ∅ in
  (length (dd_get region_status "Up") + length (dd_get region_status "Down"))%nat
  = length (known_ids m ids)
  ∧ (length (known_ids m ids) ≤ length ids)%nat.
Proof.
  intros region_status. subst region_status.
  destruct (partition_fold m ids ∅) as [-> ->].
  change (dd_get ∅ "Up") with (@nil string).
  change (dd_get ∅ "Down") with (@nil string). simpl.
  rewrite up_down_lengths, known_entries_length.
  split; [done|]. apply length_filter.
Qed.

(** ** What the per-region sections hold *)

Lemma is_prefix_refl s : is_prefix s s = true.
Proof. induction s as [|x s IH]; [done|]. cbn [is_prefix]. by rewrite Ascii.eqb_refl. Qed.

Lemma contains_refl s : contains s s = true.
Proof. destruct s; cbn [contains]; by rewrite is_prefix_refl. Qed.

Lemma contains_prefix3 a b c rest :
  contains (a +:+ b +:+ c) (a +:+ b +:+ c +:+ rest) = true.
Proof.
  replace (a +:+ b +:+ c +:+ rest) with ((a +:+ b +:+ c) +:+ rest)
    by (by rewrite !append_assoc).
  apply contains_app_l, contains_refl.
Qed.

Lemma contains_flat_elem {A} (g : A → string) x l s :
  x ∈ l → contains s (g x) = true → contains s (flat (map g l)) = true.
Proof.
  intros Hx Hs. induction l as [|y l IH]; [by apply elem_of_nil in Hx|].
  apply elem_of_cons in Hx as [<-|Hx]; simpl.
  - by apply contains_app_l.
  - by apply contains_app_r, IH.
Qed.

Lemma known_entry m ids i e : i ∈ ids → m !! i = Some e → e ∈ known_entries m ids.
Proof. intros Hi He. apply list_elem_of_omap. by exists i. Qed.

Lemma truthy_elem {A} (x : A) l : x ∈ l → truthy l = true.
Proof. by destruct 1. Qed.

Lemma name_items_contains name names :
  name ∈ names → contains ("<li>" +:+ name +:+ "</li>") (name_items names) = true.
Proof.
  intros Hn. unfold name_items.
  apply (contains_flat_elem (λ service, "<li>" +:+ service +:+ "</li>") name); [done|].
  apply contains_refl.
Qed.

Lemma report_contains_listing s item region_services m o :
  item ∈ region_services →
  contains s (listing_text m item) = true →
  contains s (report_text region_services m o) = true.
Proof.
  intros Hitem Hs. rewrite report_text_split. apply contains_app_r.
  unfold report_tail. apply contains_app_r, contains_app_l.
  by apply (contains_flat_elem (listing_text m) item).
Qed.

Lemma report_contains_detailed s item region_services m o :
  item ∈ region_services →
  contains s (detailed_text m item) = true →
  contains s (report_text region_services m o) = true.
Proof.
  intros Hitem Hs. rewrite report_text_split. apply contains_app_r.
  unfold report_tail. do 3 apply contains_app_r. apply contains_app_l.
  by apply (contains_flat_elem (detailed_text m) item).
Qed.

Lemma listing_text_contains_item m region ids i e :
  i ∈ ids → m !! i = Some e →
  contains (listing_item e) (listing_text m (region, ids)) = true.
Proof.
  intros Hi He. unfold listing_text. cbn [fst snd].
  do 4 apply contains_app_r. apply contains_app_l.
  apply (contains_flat_elem listing_item e); [by apply (known_entry m ids i)|].
  apply contains_refl.
Qed.

Lemma detailed_text_contains_name m region ids i e :
  i ∈ ids → m !! i = Some e →
  contains ("<li>" +:+ entry_name e +:+ "</li>") (detailed_text m (region, ids)) = true.
Proof.
  intros Hi He. pose proof (known_entry m ids i e Hi He) as Hk.
  unfold detailed_text. cbn [fst snd]. do 9 apply contains_app_r.
  destruct (decide (entry_status e = 1)) as [Hst|Hst].
  - assert (Hup : entry_name e ∈ up_names m ids).
    { apply list_elem_of_fmap_2. by apply list_elem_of_filter. }
    apply contains_app_l. rewrite (truthy_elem _ _ Hup).
    do 2 apply contains_app_r. by apply contains_app_l, name_items_contains.
  - assert (Hdown : entry_name e ∈ down_names m ids).
    { apply list_elem_of_fmap_2. by apply list_elem_of_filter. }
    apply contains_app_r. rewrite (truthy_elem _ _ Hdown).
    do 2 apply contains_app_r. by apply contains_app_l, name_items_contains.
Qed.

Lemma listing_text_explicit m item :
  listing_text m item
  = "<h3>" +:+ fst item +:+ ":</h3>" +:+ "<ul>"
    +:+ flat (map (λ e, "<li>" +:+ entry_name e +:+ ": "
                        +:+ (if decide (entry_status e = 1) then "Up" else "Down")
                        +:+ "</li>")
                (known_entries m (snd item)))
    +:+ "</ul>".
Proof.
  unfold listing_text. do 6 f_equal. apply map_ext. intros e.
  unfold listing_item. by rewrite display_status_spec.
Qed.

Lemma detailed_text_explicit m item :
  detailed_text m item
  = "<h3>" +:+ fst item +:+ ":</h3>"
    +:+ "<p>Services Up: "
    +:+ pretty (length (entry_name <$> filter (λ e, entry_status e = 1)
                                         (known_entries m (snd item))))
    +:+ "</p>"
    +:+ "<p>Services Down: "
    +:+ pretty (length (entry_name <$> filter (λ e, entry_status e ≠ 1)
                                         (known_entries m (snd item))))
    +:+ "</p>"
    +:+ (if truthy (entry_name <$> filter (λ e, entry_status e = 1)
                                     (known_entries m (snd item)))
         then "<h4>Services Up:</h4>" +:+ "<ul>"
              +:+ flat (map (λ service, "<li>" +:+ service +:+ "</li>")
                          (entry_name <$> filter (λ e, entry_status e = 1)
                                            (known_entries m (snd item))))
              +:+ "</ul>"
         else "")
    +:+ (if truthy (entry_name <$> filter (λ e, entry_status e ≠ 1)
                                     (known_entries m (snd item)))
         then "<h4>Services Down:</h4>" +:+ "<ul>"
              +:+ flat (map (λ service, "<li>" +:+ service +:+ "</li>")
                          (entry_name <$> filter (λ e, entry_status e ≠ 1)
                                            (known_entries m (snd item))))
              +:+ "</ul>"
         else "").
Proof. reflexivity. Qed.

(** C6: in both per-region sections of the report a service is shown as
    "Up" exactly when its status code is 1, so codes 2 and 3 (and any other
    code) are shown as "Down".  The report is the summary followed by
    "Services by Region", where every region has one item per id with a
    status record, worded "Up" for status 1 and "Down" otherwise, and by
    "Detailed Status by Region", where the names of status 1 are counted
    and listed under "Services Up" and all the others under "Services
    Down"; the loops that build the two sections use the same test.  The
    summary of the same report shows the counters of status 2 and of
    status 3 apart, and these count the records of status 2 and 3. *)
Theorem up_only_for_status_1 :
  (∀ st, display_status st = "Up" ↔ st = 1)
  ∧ (∀ st, display_status st = "Down" ↔ st ≠ 1)
  ∧ display_status 2 = "Down" ∧ display_status 3 = "Down"
  ∧ (∀ m report i e, m !! i = Some e →
       listing_step m report i
       = report +:+ "<li>" +:+ entry_name e +:+ ": "
           +:+ (if decide (entry_status e = 1) then "Up" else "Down") +:+ "</li>")
  ∧ (∀ m ids,
       let region_status := fold_left (partition_step m) ids ∅ in
       dd_get region_status "Up"
       = entry_name <$> filter (λ e, entry_status e = 1) (known_entries m ids)
       ∧ dd_get region_status "Down"
         = entry_name <$> filter (λ e, entry_status e ≠ 1) (known_entries m ids))
  ∧ (∀ data,
       count_status_2 (snd (status_loop data)) = count_of 2 (map status (walked data))
       ∧ count_status_3 (snd (status_loop data)) = count_of 3 (map status (walked data)))
  ∧ (∀ (region_services : region_dict) (m : gmap Z service_entry) (o : overall),
       report_text region_services m o
       = report_head region_services m o
         +:+ "<h2>Services by Region:</h2>"
         +:+ flat (map (λ item,
               "<h3>" +:+ fst item +:+ ":</h3>" +:+ "<ul>"
               +:+ flat (map (λ e, "<li>" +:+ entry_name e +:+ ": "
                                   +:+ (if decide (entry_status e = 1)
                                        then "Up" else "Down")
                                   +:+ "</li>")
                           (known_entries m (snd item)))
               +:+ "</ul>") region_services)
         +:+ "<h2>Detailed Status by Region:</h2>"
         +:+ flat (map (λ item,
               "<h3>" +:+ fst item +:+ ":</h3>"
               +:+ "<p>Services Up: "
               +:+ pretty (length (entry_name <$> filter (λ e, entry_status e = 1)
                                                    (known_entries m (snd item))))
               +:+ "</p>"
               +:+ "<p>Services Down: "
               +:+ pretty (length (entry_name <$> filter (λ e, entry_status e ≠ 1)
                                                    (known_entries m (snd item))))
               +:+ "</p>"
               +:+ (if truthy (entry_name <$> filter (λ e, entry_status e = 1)
                                                (known_entries m (snd item)))
                    then "<h4>Services Up:</h4>" +:+ "<ul>"
                         +:+ flat (map (λ service, "<li>" +:+ service +:+ "</li>")
                                     (entry_name <$> filter (λ e, entry_status e = 1)
                                                       (known_entries m (snd item))))
                         +:+ "</ul>"
                    else "")
               +:+ (if truthy (entry_name <$> filter (λ e, entry_status e ≠ 1)
                                                (known_entries m (snd item)))
                    then "<h4>Services Down:</h4>" +:+ "<ul>"
                         +:+ flat (map (λ service, "<li>" +:+ service +:+ "</li>")
                                     (entry_name <$> filter (λ e, entry_status e ≠ 1)
                                                       (known_entries m (snd item))))
                         +:+ "</ul>"
                    else "")) region_services)
         +:+ "</body></html>")
  ∧ (∀ (region_services : region_dict) (m : gmap Z service_entry) (o : overall)
       region ids i e,
       (region, ids) ∈ region_services → i ∈ ids → m !! i = Some e →
       contains ("<li>" +:+ entry_name e +:+ ": "
                 +:+ (if decide (entry_status e = 1) then "Up" else "Down") +:+ "</li>")
         (report_text region_services m o) = true
       ∧ (entry_status e = 1 →
          contains ("<h4>Services Up:</h4>" +:+ "<ul>"
                    +:+ flat (map (λ service, "<li>" +:+ service +:+ "</li>")
                                (entry_name <$> filter (λ e', entry_status e' = 1)
                                                  (known_entries m ids)))
                    +:+ "</ul>")
            (report_text region_services m o) = true
          ∧ entry_name e ∈ entry_name <$> filter (λ e', entry_status e' = 1)
                                            (known_entries m ids))
       ∧ (entry_status e ≠ 1 →
          contains ("<h4>Services Down:</h4>" +:+ "<ul>"
                    +:+ flat (map (λ service, "<li>" +:+ service +:+ "</li>")
                                (entry_name <$> filter (λ e', entry_status e' ≠ 1)
                                                  (known_entries m ids)))
                    +:+ "</ul>")
            (report_text region_services m o) = true
          ∧ entry_name e ∈ entry_name <$> filter (λ e', entry_status e' ≠ 1)
                                            (known_entries m ids)))
  ∧ (∀ (region_services : region_dict) (m : gmap Z service_entry) (o : overall),
       contains ("<p>Services with issues: " +:+ pretty (count_status_2 o) +:+ "</p>")
         (report_text region_services m o) = true
       ∧ contains ("<p>Services down: " +:+ pretty (count_status_3 o) +:+ "</p>")
           (report_text region_services m o) = true).
Proof.
  split; [|split; [|split; [|split; [|split; [|split; [|split; [|split; [|split]]]]]]]].
  - intros st. rewrite display_status_spec. by case_decide.
  - intros st. rewrite display_status_spec. by case_decide.
  - reflexivity.
  - reflexivity.
  - intros m report i e Hi. unfold listing_step. rewrite Hi.
    by rewrite display_status_spec.
  - intros m ids region_status. subst region_status.
    destruct (partition_fold m ids ∅) as [-> ->]. done.
  - intros data. rewrite status_loop_overall.
    destruct (overall_after_counts (walked data)) as (_ & E2 & E3 & _). done.
  - intros region_services m o. rewrite report_text_split. unfold report_tail.
    rewrite (map_ext _ _ (listing_text_explicit m)).
    rewrite (map_ext _ _ (detailed_text_explicit m)). reflexivity.
  - intros region_services m o region ids i e Hitem Hi He.
    pose proof (known_entry m ids i e Hi He) as Hk. split; [|split].
    + apply (report_contains_listing _ (region, ids)); [done|].
      rewrite <-display_status_spec.
      by apply (listing_text_contains_item m region ids i).
    + intros Hst.
      assert (Hup : entry_name e ∈ entry_name <$> filter (λ e', entry_status e' = 1)
                                                    (known_entries m ids)).
      { apply list_elem_of_fmap_2. by apply list_elem_of_filter. }
      split; [|done].
      apply (report_contains_detailed _ (region, ids)); [done|].
      rewrite detailed_text_explicit. cbn [fst snd]. do 9 apply contains_app_r.
      apply contains_app_l. rewrite (truthy_elem _ _ Hup). apply contains_refl.
    + intros Hst.
      assert (Hdown : entry_name e ∈ entry_name <$> filter (λ e', entry_status e' ≠ 1)
                                                      (known_entries m ids)).
      { apply list_elem_of_fmap_2. by apply list_elem_of_filter. }
      split; [|done].
      apply (report_contains_detailed _ (region, ids)); [done|].
      rewrite detailed_text_explicit. cbn [fst snd]. do 9 apply contains_app_r.
      apply contains_app_r. rewrite (truthy_elem _ _ Hdown). apply contains_refl.
  - intros region_services m o. split; apply head_in_report; unfold report_head.
    + apply contains_app_l, contains_app_r, contains_refl.
    + apply contains_app_r, contains_refl.
Qed.

(** X5: every service id of a region that has a status record is in the
    report: its region has a heading, "Services by Region" holds the item
    with its name and "Up" or "Down", and "Detailed Status by Region" holds
    its name in a list. *)
Theorem every_known_service_is_listed (region_services : region_dict)
    (m : gmap Z service_entry) (o : overall) (region : string) (ids : list Z)
    (i : Z) (e : service_entry) :
  (region, ids) ∈ region_services →
  i ∈ ids →
  m !! i = Some e →
  let report := report_text region_services m o in
  contains ("<h3>" +:+ region +:+ ":</h3>") report = true
  ∧ contains ("<li>" +:+ entry_name e +:+ ": "
              +:+ (if decide (entry_status e = 1) then "Up" else "Down") +:+ "</li>")
      report = true
  ∧ contains ("<li>" +:+ entry_name e +:+ "</li>") report = true.
Proof.
  intros Hitem Hi He report. subst report. split; [|split].
  - apply (report_contains_listing _ (region, ids)); [done|].
    unfold listing_text. cbn [fst snd]. apply contains_prefix3.
  - apply (report_contains_listing _ (region, ids)); [done|].
    rewrite <-display_status_spec. by apply (listing_text_contains_item m region ids i).
  - apply (report_contains_detailed _ (region, ids)); [done|].
    by apply (detailed_text_contains_name m region ids i).
Qed.

Lemma every_known_service_is_listed_witness :
  let report := @report_of first_seen w_fixture in
  contains "<h3>US:</h3>" report = true
  ∧ contains "<li>Workspace: Down</li>" report = true
  ∧ contains "<li>Workspace</li>" report = true.
Proof.
  apply (every_known_service_is_listed
           (@region_loop first_seen (Body fixture_hub))
           (fst (status_loop (Body fixture_doc)))
           (snd (status_loop (Body fixture_doc)))
           "US" [2; 3; 4] 3
           {| entry_name := "Workspace"; entry_status := 3 |}).
  - vm_compute. apply list_elem_of_further, list_elem_of_here.
  - apply list_elem_of_further, list_elem_of_here.
  - vm_compute. reflexivity.
Defined.

Lemma known_entries_empty ids : known_entries ∅ ids = [].
Proof.
  induction ids as [|i ids IH]; [done|].
  by rewrite known_entries_cons, lookup_empty.
Qed.

(** X6: when the statuses fetch fails, or its document has no [groups],
    the report still lists every region, each with an empty list and with
    zero services up and zero down, under "Overall status: All services
    up". *)
Theorem regions_listed_empty_without_statuses `{Builtins} (w : world) :
  groups_of (fetched_of (statuses_api w)) = None →
  let region_services := region_loop (fetched_of (hub_services_api w)) in
  report_of w
  = report_head region_services ∅ overall_init
    +:+ "<h2>Services by Region:</h2>"
    +:+ flat (map (λ item, "<h3>" +:+ fst item +:+ ":</h3><ul></ul>") region_services)
    +:+ "<h2>Detailed Status by Region:</h2>"
    +:+ flat (map (λ item, "<h3>" +:+ fst item
                           +:+ ":</h3><p>Services Up: 0</p><p>Services Down: 0</p>")
               region_services)
    +:+ "</body></html>"
  ∧ contains "Total number of services: 0" (report_of w) = true
  ∧ contains "Overall status: All services up" (report_of w) = true.
Proof.
  intros Hgroups region_services. subst region_services.
  unfold report_of, status_loop. rewrite Hgroups. simpl fst. simpl snd.
  split; [|split].
  - rewrite report_text_split. unfold report_tail. do 2 f_equal.
    assert (Hl : ∀ item, listing_text ∅ item = "<h3>" +:+ fst item +:+ ":</h3><ul></ul>").
    { intros item. unfold listing_text. by rewrite known_entries_empty. }
    assert (Hd : ∀ item, detailed_text ∅ item
                = "<h3>" +:+ fst item +:+ ":</h3><p>Services Up: 0</p><p>Services Down: 0</p>").
    { intros item. unfold detailed_text, up_names, down_names.
      by rewrite known_entries_empty. }
    by rewrite (map_ext _ _ Hl), (map_ext _ _ Hd).
  - apply head_in_report. unfold report_head.
    change (size (∅ : gmap Z service_entry)) with 0%nat. in_head.
  - apply head_in_report. unfold report_head. simpl all_up. in_head.
Qed.

Lemma regions_listed_empty_without_statuses_witness :
  groups_of (fetched_of (statuses_api
     {| hub_services_api := Response fixture_hub;
        statuses_api := RequestException "503 Server Error";
        environ := fixture_env; smtp := smtp_ok |})) = None
  ∧ contains "<h3>EU:</h3><ul></ul><h3>US:</h3><ul></ul>"
      (@report_of first_seen
         {| hub_services_api := Response fixture_hub;
            statuses_api := RequestException "503 Server Error";
            environ := fixture_env; smtp := smtp_ok |}) = true.
Proof.
  split; [reflexivity|].
  destruct (@regions_listed_empty_without_statuses first_seen
              {| hub_services_api := Response fixture_hub;
                 statuses_api := RequestException "503 Server Error";
                 environ := fixture_env; smtp := smtp_ok |} eq_refl) as (-> & _).
  vm_compute. reflexivity.
Defined.

(** ** The overall flag against the per-region lists *)

Lemma all_up_true_iff l :
  all_up (overall_after l) = true ↔ Forall (λ s, status s ≠ 2 ∧ status s ≠ 3) l.
Proof.
  rewrite <-not_false_iff_true, all_up_after, <-Forall_Exists_neg, !Forall_forall.
  split; intros Hl s Hs; specialize (Hl s Hs); tauto.
Qed.

Lemma status_entry_from_record data i e :
  fst (status_loop data) !! i = Some e →
  ∃ s, s ∈ walked data ∧ service_id s = i ∧ e = entry_of s.
Proof.
  rewrite status_loop_lookup. unfold last_with_id.
  destruct (last _) as [s|] eqn:Hlast; [|done]. intros [= <-].
  apply last_Some_elem_of, list_elem_of_filter in Hlast as [Hid Hs]. by exists s.
Qed.

Lemma filter_none {A} (P : A → Prop) `{∀ x, Decision (P x)} l :
  Forall (λ x, ¬ P x) l → filter P l = [].
Proof.
  induction 1 as [|x l Hx _ IH]; [done|].
  by rewrite filter_cons, decide_False.
Qed.

(** X7: a status code other than 1, 2 and 3 leaves [all_up] true and is
    counted nowhere, yet its service is listed as "Down": when no record
    has status 2 or 3 and the record kept for an id of a region has a
    status other than 1, the report says "Overall status: All services up"
    and lists that service as Down. *)
Theorem all_up_yet_listed_down (data : fetched statuses_doc)
    (region_services : region_dict) (region : string) (ids : list Z)
    (i : Z) (s : service_rec) :
  Forall (λ r, status r ≠ 2 ∧ status r ≠ 3) (walked data) →
  last_with_id i (walked data) = Some s →
  status s ≠ 1 →
  (region, ids) ∈ region_services →
  i ∈ ids →
  let report := report_text region_services (fst (status_loop data))
                  (snd (status_loop data)) in
  all_up (snd (status_loop data)) = true
  ∧ contains "Overall status: All services up" report = true
  ∧ contains ("<li>" +:+ service_name s +:+ ": Down</li>") report = true.
Proof.
  intros Hno Hlast Hst Hitem Hi report. subst report.
  assert (Hall : all_up (snd (status_loop data)) = true).
  { rewrite status_loop_overall. by apply all_up_true_iff. }
  split; [done|]. split.
  - apply head_in_report. unfold report_head. rewrite Hall. in_head.
  - apply (report_contains_listing _ (region, ids)); [done|].
    assert (He : fst (status_loop data) !! i = Some (entry_of s))
      by (by rewrite status_loop_lookup, Hlast).
    pose proof (listing_text_contains_item _ region ids i _ Hi He) as Hc.
    unfold listing_item, entry_of in Hc. simpl entry_name in Hc.
    simpl entry_status in Hc.
    rewrite display_status_spec, decide_False in Hc by done. exact Hc.
Qed.

Lemma all_up_yet_listed_down_witness :
  let report := report_text [("EU", [1; 5])] (fst (status_loop (Body legacy_doc)))
                  (snd (status_loop (Body legacy_doc))) in
  all_up (snd (status_loop (Body legacy_doc))) = true
  ∧ contains "Overall status: All services up" report = true
  ∧ contains "<li>Legacy: Down</li>" report = true.
Proof.
  apply (all_up_yet_listed_down (Body legacy_doc) [("EU", [1; 5])] "EU" [1; 5] 5
           {| service_id := 5; service_name := "Legacy"; status := 4 |}).
  - repeat constructor; simpl; lia.
  - vm_compute. reflexivity.
  - simpl. lia.
  - apply list_elem_of_here.
  - apply list_elem_of_further, list_elem_of_here.
Defined.

(** X8: when every status code of the response is 1, 2 or 3 and [all_up]
    ends true, no region has a service in its "Down" list: every id of a
    region that has a status record is in its "Up" list. *)
Theorem all_up_means_no_region_down (data : fetched statuses_doc) (ids : list Z) :
  all_up (snd (status_loop data)) = true →
  Forall (λ s, recognised (status s)) (walked data) →
  let region_status := fold_left (partition_step (fst (status_loop data))) ids ∅ in
  dd_get region_status "Down" = []
  ∧ length (dd_get region_status "Up") = length (known_ids (fst (status_loop data)) ids).
Proof.
  intros Hall Hrec region_status. subst region_status.
  rewrite status_loop_overall in Hall. apply all_up_true_iff in Hall.
  destruct (partition_fold (fst (status_loop data)) ids ∅) as [-> ->].
  change (dd_get ∅ "Up") with (@nil string).
  change (dd_get ∅ "Down") with (@nil string). simpl app.
  assert (Hdown : down_names (fst (status_loop data)) ids = []).
  { unfold down_names. rewrite filter_none; [done|].
    apply Forall_forall. intros e (i & _ & He)%list_elem_of_omap.
    apply status_entry_from_record in He as (s & Hs & _ & ->).
    rewrite Forall_forall in Hall, Hrec.
    destruct (Hall s Hs) as [H2 H3]. destruct (Hrec s Hs) as [H1|[?|?]]; try done.
    intros Hne. by apply Hne. }
  split; [done|].
  rewrite <-known_entries_length, <-up_down_lengths, Hdown. simpl. lia.
Qed.

Lemma all_up_means_no_region_down_witness :
  all_up (snd (status_loop (Body healthy_doc))) = true
  ∧ Forall (λ s, recognised (status s)) (walked (Body healthy_doc))
  ∧ let region_status :=
      fold_left (partition_step (fst (status_loop (Body healthy_doc)))) [1; 2; 9] ∅ in
    dd_get region_status "Down" = []
    ∧ length (dd_get region_status "Up")
      = length (known_ids (fst (status_loop (Body healthy_doc))) [1; 2; 9]).
Proof.
  assert (Hall : all_up (snd (status_loop (Body healthy_doc))) = true)
    by (vm_compute; reflexivity).
  assert (Hrec : Forall (λ s, recognised (status s)) (walked (Body healthy_doc)))
    by (repeat constructor; unfold recognised; simpl; lia).
  split; [exact Hall|]. split; [exact Hrec|].
  exact (all_up_means_no_region_down (Body healthy_doc) [1; 2; 9] Hall Hrec).
Defined.

(** ** The SMTP traffic of [send_email] *)

Lemma with_SMTP_steps w host port use_tls user password msg fx :
  smtp_trace (snd (with_SMTP w host port (smtp_session w use_tls user password msg) fx))
  = smtp_trace fx ++ Connect host port :: session_steps w use_tls user password msg.
Proof.
  unfold with_SMTP, smtp_exit, smtp_session, session_steps, body_steps.
  rewrite run_bind. unfold smtp_do at 1.
  destruct (on_connect (smtp w)); [done|].
  rewrite !run_bind. unfold smtp_do.
  destruct use_tls, (on_starttls (smtp w)), (on_login (smtp w)),
    (on_send_message (smtp w)), (on_quit (smtp w)); simpl;
    by rewrite <-?app_assoc.
Qed.

Lemma Plain_send_email_steps `{Builtins} w subject body recipients fx s port :
  environ w !! "SMTP_PORT" = Some s →
  py_int s = Some port →
  smtp_trace (snd (Plain.send_email w subject body recipients fx))
  = smtp_trace fx ++ send_steps w port subject body recipients.
Proof.
  intros Hs Hport. unfold Plain.send_email, int_getenv. rewrite Hs, Hport, run_bind.
  apply with_SMTP_steps.
Qed.

Lemma Logged_send_email_steps `{Builtins} w subject body recipients fx s port :
  environ w !! "SMTP_PORT" = Some s →
  py_int s = Some port →
  smtp_trace (snd (Logged.send_email w subject body recipients fx))
  = smtp_trace fx ++ send_steps w port subject body recipients.
Proof.
  intros Hs Hport. unfold Logged.send_email, int_getenv. rewrite Hs, Hport.
  rewrite run_bind. unfold log_with_timestamp at 1. rewrite run_bind.
  unfold mret at 1, M_ret at 1. unfold try_except. rewrite run_bind.
  match goal with |- context [with_SMTP w ?h ?p ?b ?fx1] =>
    pose proof (with_SMTP_steps w h p (use_tls_of w) (environ w !! "SMTP_USERNAME")
                  (environ w !! "SMTP_PASSWORD")
                  (message_of w subject body recipients) fx1) as Hsteps;
    change b with (smtp_session w (use_tls_of w) (environ w !! "SMTP_USERNAME")
                     (environ w !! "SMTP_PASSWORD")
                     (message_of w subject body recipients)) in *;
    destruct (with_SMTP w h p _ fx1) as [[[]|e] fx2]
  end; simpl in *; exact Hsteps.
Qed.



Lemma use_tls_of_true w :
  use_tls_of w = true ↔ ∃ v, environ w !! "USE_TLS" = Some v ∧ lower v = "true".
Proof.
  unfold use_tls_of. rewrite bool_decide_eq_true.
  destruct (environ w !! "USE_TLS") as [v|]; simpl.
  - split; [by exists v|]. by intros (v' & [= <-] & Hv).
  - split; [by vm_compute|]. by intros (v' & ? & _).
Qed.

(** X10: [send_email] of either file attempts STARTTLS exactly when the
    connection is set up and [USE_TLS] is set to a value that reads "true"
    in lower case; with [USE_TLS] unset the login goes out without it. *)
Theorem starttls_only_when_enabled `{Builtins} (w : world) (subject body : string)
    (recipients : list string) (fx : effects) (s : string) (port : Z) :
  environ w !! "SMTP_PORT" = Some s →
  py_int s = Some port →
  ∃ steps,
    smtp_trace (snd (Logged.send_email w subject body recipients fx))
    = smtp_trace fx ++ Connect (environ w !! "SMTP_SERVER") port :: steps
    ∧ smtp_trace (snd (Plain.send_email w subject body recipients fx))
      = smtp_trace fx ++ Connect (environ w !! "SMTP_SERVER") port :: steps
    ∧ (StartTLS ∈ steps ↔
       on_connect (smtp w) = None
       ∧ ∃ v, environ w !! "USE_TLS" = Some v ∧ lower v = "true")
    ∧ (on_connect (smtp w) = None → environ w !! "USE_TLS" = None →
       head steps = Some (Login (environ w !! "SMTP_USERNAME")
                            (environ w !! "SMTP_PASSWORD"))).
Proof.
  intros Hs Hport.
  exists (session_steps w (use_tls_of w) (environ w !! "SMTP_USERNAME")
            (environ w !! "SMTP_PASSWORD") (message_of w subject body recipients)).
  split; [by apply (Logged_send_email_steps w subject body recipients fx s)|].
  split; [by apply (Plain_send_email_steps w subject body recipients fx s)|].
  rewrite <-use_tls_of_true. unfold session_steps, body_steps. split.
  - destruct (on_connect (smtp w)) as [e|].
    { split; [by intros ?%elem_of_nil|by intros [? _]]. }
    destruct (use_tls_of w).
    + split; [done|]. intros _. apply list_elem_of_here.
    + split; [|by intros [_ ?]].
      destruct (on_login (smtp w)); simpl; intros Hin;
        repeat (apply elem_of_cons in Hin as [?|Hin]; [done|]);
        by apply elem_of_nil in Hin.
  - intros -> Hunset.
    assert (Htls : use_tls_of w = false).
    { apply not_true_iff_false. intros (v & Hv & _)%use_tls_of_true. congruence. }
    by rewrite Htls.
Qed.

Lemma starttls_only_when_enabled_witness :
  environ w_fixture !! "SMTP_PORT" = Some "587"
  ∧ @py_int first_seen "587" = Some 587
  ∧ ∃ steps,
      smtp_trace (snd (@Logged.send_email first_seen w_fixture
                         "Citrix Service Status Report" "<html></html>"
                         ["ops@example.com"] no_effects))
      = smtp_trace no_effects ++ Connect (environ w_fixture !! "SMTP_SERVER") 587 :: steps
      ∧ smtp_trace (snd (@Plain.send_email first_seen w_fixture
                           "Citrix Service Status Report" "<html></html>"
                           ["ops@example.com"] no_effects))
        = smtp_trace no_effects ++ Connect (environ w_fixture !! "SMTP_SERVER") 587 :: steps
      ∧ (StartTLS ∈ steps ↔
         on_connect (smtp w_fixture) = None
         ∧ ∃ v, environ w_fixture !! "USE_TLS" = Some v ∧ lower v = "true")
      ∧ (on_connect (smtp w_fixture) = None → environ w_fixture !! "USE_TLS" = None →
         head steps = Some (Login (environ w_fixture !! "SMTP_USERNAME")
                              (environ w_fixture !! "SMTP_PASSWORD"))).
Proof.
  split; [vm_compute; reflexivity|]. split; [vm_compute; reflexivity|].
  apply (@starttls_only_when_enabled first_seen w_fixture
           "Citrix Service Status Report" "<html></html>" ["ops@example.com"]
           no_effects "587" 587); vm_compute; reflexivity.
Defined.

(** X11: when TLS is asked for and STARTTLS raises, [send_email] of either
    file goes on to QUIT at once: neither the login with the password nor
    the message is sent over the connection. *)
Theorem no_login_after_failed_starttls `{Builtins} (w : world) (subject body : string)
    (recipients : list string) (fx : effects) (s : string) (port : Z) (e : exn) :
  environ w !! "SMTP_PORT" = Some s →
  py_int s = Some port →
  use_tls_of w = true →
  on_connect (smtp w) = None →
  on_starttls (smtp w) = Some e →
  smtp_trace (snd (Logged.send_email w subject body recipients fx))
  = smtp_trace fx ++ [Connect (environ w !! "SMTP_SERVER") port; StartTLS; Quit]
  ∧ smtp_trace (snd (Plain.send_email w subject body recipients fx))
    = smtp_trace fx ++ [Connect (environ w !! "SMTP_SERVER") port; StartTLS; Quit].
Proof.
  intros Hs Hport Htls Hconn Hstart.
  rewrite (Logged_send_email_steps w subject body recipients fx s port Hs Hport).
  rewrite (Plain_send_email_steps w subject body recipients fx s port Hs Hport).
  unfold send_steps, session_steps, body_steps. by rewrite Htls, Hconn, Hstart.
Qed.

Lemma no_login_after_failed_starttls_witness :
  environ w_no_starttls !! "SMTP_PORT" = Some "587"
  ∧ @py_int first_seen "587" = Some 587
  ∧ use_tls_of w_no_starttls = true
  ∧ on_connect (smtp w_no_starttls) = None
  ∧ on_starttls (smtp w_no_starttls) = Some starttls_refused
  ∧ smtp_trace (snd (@Logged.send_email first_seen w_no_starttls
                       "Citrix Service Status Report" "<html></html>"
                       ["ops@example.com"] no_effects))
    = smtp_trace no_effects
      ++ [Connect (environ w_no_starttls !! "SMTP_SERVER") 587; StartTLS; Quit]
  ∧ smtp_trace (snd (@Plain.send_email first_seen w_no_starttls
                       "Citrix Service Status Report" "<html></html>"
                       ["ops@example.com"] no_effects))
    = smtp_trace no_effects
      ++ [Connect (environ w_no_starttls !! "SMTP_SERVER") 587; StartTLS; Quit].
Proof.
  do 5 (split; [vm_compute; reflexivity|]).
  apply (@no_login_after_failed_starttls first_seen w_no_starttls
           "Citrix Service Status Report" "<html></html>" ["ops@example.com"]
           no_effects "587" 587 starttls_refused); vm_compute; reflexivity.
Defined.

(** ** Whole runs: what is sent, what is written, how they end *)

Lemma Plain_main_reaches_send `{Builtins} w fx r :
  environ w !! "EMAIL_RECIPIENTS" = Some r →
  ∃ fx3, smtp_trace fx3 = smtp_trace fx
         ∧ Plain.main w fx
           = Plain.send_email w "Citrix Service Status Report" (report_of w)
               (split "," r) fx3.
Proof.
  intros Hr. unfold Plain.main. rewrite run_bind.
  destruct (Plain_create_report_run w fx) as (fx1 & -> & Hd1). rewrite run_bind.
  destruct (run_print (report_of w) fx1) as (fx2 & -> & Hd2). rewrite run_bind.
  destruct (write_file_run report_path (report_of w) fx2) as (fx3 & -> & _ & Ht3).
  injection Hd1 as _ Ht1. injection Hd2 as _ Ht2.
  rewrite run_bind, recipients_of_run, Hr.
  exists fx3. split; [congruence|done].
Qed.

Lemma Logged_main_reaches_send `{Builtins} w fx r :
  environ w !! "EMAIL_RECIPIENTS" = Some r →
  ∃ fx4, smtp_trace fx4 = smtp_trace fx
         ∧ smtp_trace (snd (Logged.main w fx))
           = smtp_trace (snd (Logged.send_email w "Citrix Service Status Report"
                                (report_of w) (split "," r) fx4)).
Proof.
  intros Hr. unfold Logged.main. step_log fxa Hda. rewrite run_bind.
  destruct (Logged_create_report_run w fxa) as (fx1 & -> & Hd1).
  step_log fx2 Hd2. rewrite run_bind.
  destruct (write_file_run report_path (report_of w) fx2) as (fx3 & -> & _ & Ht3).
  step_log fx4 Hd4.
  injection Hda as _ Hta. injection Hd1 as _ Ht1.
  injection Hd2 as _ Ht2. injection Hd4 as _ Ht4.
  rewrite run_bind, recipients_of_run, Hr, run_bind.
  exists fx4. split; [congruence|].
  by destruct (Logged.send_email _ _ _ _ fx4) as [[[]|e] fx5].
Qed.

(** X12: on a run where the recipients and the port are configured and the
    session gets past the login, the message handed to the server has the
    report as its HTML body, the very string that is in the report file;
    its To header is the recipients joined with ", ", its From header the
    SMTP user name.  This holds for both files. *)
Theorem emailed_body_is_the_file `{Builtins} (w : world) (fx : effects)
    (r s : string) (port : Z) :
  environ w !! "EMAIL_RECIPIENTS" = Some r →
  environ w !! "SMTP_PORT" = Some s →
  py_int s = Some port →
  on_connect (smtp w) = None →
  (use_tls_of w = true → on_starttls (smtp w) = None) →
  on_login (smtp w) = None →
  let msg := {| msg_From := environ w !! "SMTP_USERNAME";
                msg_To := join ", " (split "," r);
                msg_Subject := "Citrix Service Status Report";
                msg_html := report_of w |} in
  SendMessage msg ∈ smtp_trace (snd (Logged.main w fx))
  ∧ SendMessage msg ∈ smtp_trace (snd (Plain.main w fx))
  ∧ files (snd (Logged.main w fx)) !! report_path = Some (report_of w)
  ∧ files (snd (Plain.main w fx)) !! report_path = Some (report_of w).
Proof.
  intros Hr Hs Hport Hconn Hstart Hlogin msg.
  assert (Hin : ∀ pre, SendMessage msg
            ∈ pre ++ send_steps w port "Citrix Service Status Report" (report_of w)
                       (split "," r)).
  { intros pre. apply elem_of_app. right.
    unfold send_steps, session_steps, body_steps. rewrite Hconn, Hlogin.
    destruct (use_tls_of w).
    - rewrite Hstart by done. simpl.
      do 3 apply list_elem_of_further. apply list_elem_of_here.
    - simpl. do 2 apply list_elem_of_further. apply list_elem_of_here. }
  split; [|split; [|split]].
  - destruct (Logged_main_reaches_send w fx r Hr) as (fx4 & _ & ->).
    rewrite (Logged_send_email_steps w _ _ _ fx4 s port Hs Hport). apply Hin.
  - destruct (Plain_main_reaches_send w fx r Hr) as (fx3 & _ & ->).
    rewrite (Plain_send_email_steps w _ _ _ fx3 s port Hs Hport). apply Hin.
  - destruct (Logged_main_run w fx) as (fx' & -> & Hf & _). simpl.
    rewrite Hf. apply lookup_insert_eq.
  - destruct (Plain_main_run w fx) as (fx' & -> & Hf & _). simpl.
    rewrite Hf. apply lookup_insert_eq.
Qed.

Lemma emailed_body_is_the_file_witness :
  let msg := {| msg_From := Some "reports@example.com";
                msg_To := "ops@example.com, noc@example.com";
                msg_Subject := "Citrix Service Status Report";
                msg_html := @report_of first_seen w_fixture |} in
  SendMessage msg ∈ smtp_trace (snd (@Logged.main first_seen w_fixture no_effects))
  ∧ SendMessage msg ∈ smtp_trace (snd (@Plain.main first_seen w_fixture no_effects))
  ∧ files (snd (@Logged.main first_seen w_fixture no_effects)) !! report_path
    = Some (@report_of first_seen w_fixture)
  ∧ files (snd (@Plain.main first_seen w_fixture no_effects)) !! report_path
    = Some (@report_of first_seen w_fixture).
Proof.
  apply (@emailed_body_is_the_file first_seen w_fixture no_effects
           "ops@example.com,noc@example.com" "587" 587);
    vm_compute; reflexivity.
Defined.

(** X13: [int(os.getenv('SMTP_PORT'))] stands before the [try] in
    [src/main.py] as well: when [EMAIL_RECIPIENTS] is set and [SMTP_PORT]
    is unset or no integer literal, both files end in the uncaught
    [TypeError] or [ValueError], with the report file written and no SMTP
    step attempted. *)
Theorem bad_port_fatal_in_both `{Builtins} (w : world) (fx : effects) (r : string) (e : exn) :
  environ w !! "EMAIL_RECIPIENTS" = Some r →
  port_failure w = Some e →
  (fst (Logged.main w fx) = Raise e
   ∧ files (snd (Logged.main w fx)) !! report_path = Some (report_of w)
   ∧ smtp_trace (snd (Logged.main w fx)) = smtp_trace fx)
  ∧ (fst (Plain.main w fx) = Raise e
     ∧ files (snd (Plain.main w fx)) !! report_path = Some (report_of w)
     ∧ smtp_trace (snd (Plain.main w fx)) = smtp_trace fx).
Proof.
  intros Hr Hport. split.
  - destruct (Logged_main_reaches_send w fx r Hr) as (fx4 & Ht4 & ->).
    destruct (Logged_main_run w fx) as (fx' & -> & Hf & _).
    unfold logged_main_failure. rewrite Hr, Hport.
    split; [done|]. split; [simpl; rewrite Hf; apply lookup_insert_eq|].
    unfold Logged.send_email. rewrite run_bind.
    unfold log_with_timestamp at 1. rewrite run_bind.
    match goal with |- context [int_getenv w "SMTP_PORT" ?fx1] =>
      pose proof (int_getenv_run w fx1) as Hrun end.
    rewrite Hport in Hrun. rewrite Hrun. done.
  - destruct (Plain_main_reaches_send w fx r Hr) as (fx3 & Ht3 & Hmain).
    destruct (Plain_main_run w fx) as (fx' & Hrun' & Hf & _).
    assert (Htrace : smtp_trace (snd (Plain.main w fx)) = smtp_trace fx).
    { rewrite Hmain. unfold Plain.send_email. rewrite run_bind.
      pose proof (int_getenv_run w fx3) as Hrun. rewrite Hport in Hrun.
      by rewrite Hrun. }
    split; [|split; [|exact Htrace]].
    + rewrite Hrun'. unfold plain_main_failure, plain_send_failure.
      by rewrite Hr, Hport.
    + rewrite Hrun'. simpl. rewrite Hf. apply lookup_insert_eq.
Qed.

Lemma bad_port_fatal_in_both_witness :
  environ w_no_port !! "EMAIL_RECIPIENTS" = Some "ops@example.com,noc@example.com"
  ∧ (∃ e, @port_failure first_seen w_no_port = Some e
       ∧ fst (@Logged.main first_seen w_no_port no_effects) = Raise e
       ∧ smtp_trace (snd (@Logged.main first_seen w_no_port no_effects)) = []
       ∧ fst (@Plain.main first_seen w_no_port no_effects) = Raise e).
Proof.
  split; [vm_compute; reflexivity|].
  exists (TypeError "int() argument must be a string, a bytes-like object or a real number, not 'NoneType'").
  assert (Hr : environ w_no_port !! "EMAIL_RECIPIENTS"
               = Some "ops@example.com,noc@example.com") by (vm_compute; reflexivity).
  assert (Hp : @port_failure first_seen w_no_port
               = Some (TypeError "int() argument must be a string, a bytes-like object or a real number, not 'NoneType'"))
    by (vm_compute; reflexivity).
  destruct (@bad_port_fatal_in_both first_seen w_no_port no_effects _ _ Hr Hp)
    as ((Hl & _ & Ht) & (Hp' & _)).
  split; [exact Hp|]. split; [exact Hl|]. split; [exact Ht|exact Hp'].
Defined.


(** X15: the email step never touches a file.  [send_email] of either
    file leaves every file as it was, whatever the SMTP session raises and
    whether or not the port can be read.  So on a run that gets its report
    (each fetch raises a [requests.RequestException] or returns a document
    of the endpoint's shape) and writes it, one file only has changed when
    [main] ends, normally or not: the report file holds the report, what
    it held before is gone, and every other file is as it was. *)
Theorem only_the_report_file_is_written `{Builtins} (w : world) (fx : effects) :
  (∀ subject body recipients fx0,
     files (snd (Logged.send_email w subject body recipients fx0)) = files fx0
     ∧ files (snd (Plain.send_email w subject body recipients fx0)) = files fx0)
  ∧ files (snd (Logged.main w fx)) = <[report_path := report_of w]> (files fx)
  ∧ files (snd (Plain.main w fx)) = <[report_path := report_of w]> (files fx)
  ∧ ∀ path, path ≠ report_path →
      files (snd (Logged.main w fx)) !! path = files fx !! path
      ∧ files (snd (Plain.main w fx)) !! path = files fx !! path.
Proof.
  split.
  { intros subject body recipients fx0.
    destruct (Logged_send_email_run w subject body recipients fx0) as (fx1 & -> & Hf1).
    destruct (Plain_send_email_run w subject body recipients fx0) as (fx2 & -> & Hf2).
    done. }
  destruct (Logged_main_run w fx) as (fx1 & -> & Hf1 & _).
  destruct (Plain_main_run w fx) as (fx2 & -> & Hf2 & _).
  simpl. rewrite Hf1, Hf2. split; [done|]. split; [done|].
  intros path Hpath. by rewrite lookup_insert_ne.
Qed.

(** ** Console and log *)

Lemma run_ret_eq {A} (a : A) fx : (mret a : M A) fx = (Ret a, fx).
Proof. reflexivity. Qed.

Lemma keeps_ret {A B} (f : effects → B) (a : A) : keeps f (mret a : M A).
Proof. by intros fx. Qed.

Lemma keeps_bind {A B C} (f : effects → C) (m : M A) (k : A → M B) :
  keeps f m → (∀ a, keeps f (k a)) → keeps f (m ≫= k).
Proof.
  intros Hm Hk fx. rewrite run_bind. specialize (Hm fx).
  destruct (m fx) as [[a|e] fx']; simpl in *; [|done].
  by rewrite Hk.
Qed.

Lemma keeps_try_except {A B} (f : effects → B) (body : M A) handler :
  keeps f body → (∀ e, keeps f (handler e)) → keeps f (try_except body handler).
Proof.
  intros Hb Hh fx. unfold try_except. specialize (Hb fx).
  destruct (body fx) as [[a|e] fx']; simpl in *; [done|]. by rewrite Hh.
Qed.

Lemma keeps_smtp_exit {B} (f : effects → B) w (body : M unit) :
  (∀ a failure, keeps f (smtp_do a failure)) →
  keeps f body → keeps f (smtp_exit w body).
Proof.
  intros Hdo Hb fx. unfold smtp_exit. specialize (Hb fx).
  destruct (body fx) as [r fx1]. specialize (Hdo Quit (on_quit (smtp w)) fx1).
  destruct (smtp_do Quit (on_quit (smtp w)) fx1) as [[[]|e] fx2]; simpl in *; congruence.
Qed.

Lemma keeps_stdout_smtp_do a failure : keeps stdout (smtp_do a failure).
Proof. intros fx. unfold smtp_do. by destruct failure. Qed.

Lemma keeps_log_smtp_do a failure : keeps log (smtp_do a failure).
Proof. intros fx. unfold smtp_do. by destruct failure. Qed.

Lemma keeps_recipients_of {B} (f : effects → B) w : keeps f (recipients_of w).
Proof. intros fx. rewrite recipients_of_run. by destruct (environ w !! _). Qed.

Lemma keeps_int_getenv `{Builtins} {B} (f : effects → B) w k : keeps f (int_getenv w k).
Proof.
  intros fx. unfold int_getenv. destruct (environ w !! k) as [s|]; [|done].
  by destruct (py_int s).
Qed.

(** Walks through a computation built from binds and primitive steps. *)
Ltac keeps_steps :=
  repeat match goal with
    | |- keeps _ (_ ≫= _) => apply keeps_bind
    | |- ∀ _, _ => intro
    | |- keeps _ (mret _) => apply keeps_ret
    | |- keeps _ (recipients_of _) => apply keeps_recipients_of
    | |- keeps _ (int_getenv _ _) => apply keeps_int_getenv
    | |- keeps _ (try_except _ _) => apply keeps_try_except
    | |- keeps stdout (smtp_do _ _) => apply keeps_stdout_smtp_do
    | |- keeps log (smtp_do _ _) => apply keeps_log_smtp_do
    | |- keeps stdout (smtp_exit _ _) => apply keeps_smtp_exit; [apply keeps_stdout_smtp_do|]
    | |- keeps log (smtp_exit _ _) => apply keeps_smtp_exit; [apply keeps_log_smtp_do|]
    | |- keeps _ (match ?x with _ => _ end) => destruct x
    | |- keeps _ (log_with_timestamp _ _) => by intros ?
    | |- keeps _ (print _) => by intros ?
    | |- keeps _ (write_file _ _) => by intros ?
    end.

Lemma Logged_send_email_keeps_stdout `{Builtins} w subject body recipients :
  keeps stdout (Logged.send_email w subject body recipients).
Proof.
  unfold Logged.send_email, with_SMTP, smtp_session. keeps_steps.
Qed.

Lemma Plain_send_email_keeps `{Builtins} w subject body recipients :
  keeps stdout (Plain.send_email w subject body recipients)
  ∧ keeps log (Plain.send_email w subject body recipients).
Proof.
  unfold Plain.send_email, with_SMTP, smtp_session. split; keeps_steps.
Qed.

Lemma Logged_create_report_keeps_stdout `{Builtins} w : keeps stdout (Logged.create_report w).
Proof.
  unfold Logged.create_report, Logged.get_region_services,
    Logged.get_service_statuses, Logged.fetch_data.
  keeps_steps.
Qed.

Lemma Plain_fetch_data_console {A} url (r : http_result A) fx :
  ∃ fx', Plain.fetch_data url r fx = (Ret (fetched_of r), fx')
         ∧ stdout fx'
           = stdout fx
             ++ match r with
                | RequestException e => ["Error fetching data from " +:+ url +:+ ": " +:+ e]
                | Response _ => []
                end
         ∧ log fx' = log fx.
Proof.
  destruct r; eexists; (split; [reflexivity|]); simpl; by rewrite ?app_nil_r.
Qed.

Lemma Plain_create_report_console `{Builtins} w fx :
  ∃ fx', Plain.create_report w fx = (Ret (report_of w), fx')
         ∧ stdout fx' = stdout fx ++ fetch_errors w
         ∧ log fx' = log fx.
Proof.
  unfold Plain.create_report, report_of, fetch_errors. rewrite run_bind.
  unfold Plain.get_region_services. rewrite run_bind.
  destruct (Plain_fetch_data_console hub_url (hub_services_api w) fx)
    as (fx1 & -> & Hs1 & Hl1).
  rewrite run_ret_eq, run_bind. unfold Plain.get_service_statuses. rewrite run_bind.
  destruct (Plain_fetch_data_console statuses_url (statuses_api w) fx1)
    as (fx2 & -> & Hs2 & Hl2).
  rewrite run_ret_eq. destruct (status_loop _) as [m o].
  exists fx2. split; [done|]. rewrite Hs2, Hs1, Hl2, Hl1, <-app_assoc. done.
Qed.

(** X16: [src/main.py] never prints and [src/Main.py] never logs: a run
    of [src/main.py] leaves standard output as it was, a run of
    [src/Main.py] leaves the log as it was and prints one line per failed
    fetch and then the whole report. *)
Theorem console_of_the_two_files `{Builtins} (w : world) (fx : effects) :
  stdout (snd (Logged.main w fx)) = stdout fx
  ∧ log (snd (Plain.main w fx)) = log fx
  ∧ stdout (snd (Plain.main w fx)) = stdout fx ++ fetch_errors w ++ [report_of w].
Proof.
  split; [|split].
  - revert fx. change (keeps stdout (Logged.main w)). unfold Logged.main.
    keeps_steps.
    + apply Logged_create_report_keeps_stdout.
    + apply Logged_send_email_keeps_stdout.
  - unfold Plain.main. rewrite run_bind.
    destruct (Plain_create_report_console w fx) as (fx1 & -> & _ & Hl1).
    rewrite <-Hl1.
    match goal with |- log (snd (?m fx1)) = _ =>
      assert (Hk : keeps log m) by (keeps_steps; apply Plain_send_email_keeps) end.
    apply Hk.
  - unfold Plain.main. rewrite run_bind.
    destruct (Plain_create_report_console w fx) as (fx1 & -> & Hs1 & _).
    rewrite run_bind. unfold print at 1. rewrite app_assoc, <-Hs1.
    match goal with |- stdout (snd (?m ?fx2)) = _ =>
      assert (Hk : keeps stdout m) by (keeps_steps; apply Plain_send_email_keeps);
      apply (Hk fx2) end.
Qed.

(** ** The log of [src/main.py] *)

Lemma Logged_fetch_data_log {A} url (r : http_result A) fx :
  ∃ fx', Logged.fetch_data url r fx = (Ret (fetched_of r), fx')
         ∧ log fx' = log fx ++ [(INFO, "Fetching data from " +:+ url); fetch_entry url r].
Proof.
  destruct r; eexists; (split; [reflexivity|]); simpl; by rewrite <-app_assoc.
Qed.

Lemma Logged_create_report_log `{Builtins} w fx :
  ∃ fx', Logged.create_report w fx = (Ret (report_of w), fx')
         ∧ log fx' = log fx ++ report_log w.
Proof.
  unfold Logged.create_report, report_of, report_log.
  rewrite run_bind. unfold log_with_timestamp at 1. rewrite run_bind.
  unfold Logged.get_region_services.
  rewrite run_bind. unfold log_with_timestamp at 1. rewrite run_bind.
  match goal with |- context [Logged.fetch_data hub_url _ ?fx0] =>
    destruct (Logged_fetch_data_log hub_url (hub_services_api w) fx0)
      as (fx1 & -> & Hl1) end.
  rewrite run_bind. unfold log_with_timestamp at 1. rewrite run_ret_eq, run_bind.
  unfold Logged.get_service_statuses.
  rewrite run_bind. unfold log_with_timestamp at 1. rewrite run_bind.
  match goal with |- context [Logged.fetch_data statuses_url _ ?fx0] =>
    destruct (Logged_fetch_data_log statuses_url (statuses_api w) fx0)
      as (fx2 & -> & Hl2) end.
  destruct (status_loop _) as [m o].
  rewrite !run_bind. unfold log_with_timestamp. rewrite ?run_ret_eq.
  eexists. split; [reflexivity|]. simpl in *. rewrite Hl2. simpl. rewrite Hl1. simpl.
  by rewrite <-!app_assoc.
Qed.

Lemma Logged_send_email_log `{Builtins} w subject body recipients fx :
  ∃ fx', Logged.send_email w subject body recipients fx
         = (result_of (port_failure w), fx')
         ∧ log fx' = log fx ++ send_log w recipients.
Proof.
  unfold Logged.send_email, send_log.
  rewrite run_bind. unfold log_with_timestamp at 1. rewrite run_bind.
  match goal with |- context [int_getenv w "SMTP_PORT" ?fx1] =>
    pose proof (int_getenv_run w fx1) as Hrun; set (fxa := fx1) in * end.
  destruct (port_failure w) as [e|].
  - rewrite Hrun. by exists fxa.
  - destruct Hrun as [port ->]. unfold try_except. rewrite run_bind.
    destruct (with_SMTP_run w (environ w !! "SMTP_SERVER") port (use_tls_of w)
                (environ w !! "SMTP_USERNAME") (environ w !! "SMTP_PASSWORD")
                {| msg_From := environ w !! "SMTP_USERNAME";
                   msg_To := join ", " recipients;
                   msg_Subject := subject; msg_html := body |} fxa)
      as (fx1 & -> & _ & _ & Hl).
    destruct (session_failure w (use_tls_of w)) as [e|]; simpl;
      (eexists; split; [reflexivity|]); simpl; rewrite Hl; subst fxa; simpl;
      by rewrite <-app_assoc.
Qed.

Lemma Logged_main_log `{Builtins} w fx :
  log (snd (Logged.main w fx)) = log fx ++ main_log w.
Proof.
  unfold Logged.main, main_log.
  rewrite run_bind. unfold log_with_timestamp at 1. rewrite run_bind.
  match goal with |- context [Logged.create_report w ?fx0] =>
    destruct (Logged_create_report_log w fx0) as (fx1 & -> & Hl1) end.
  rewrite run_bind. unfold log_with_timestamp at 1.
  rewrite run_bind. unfold write_file at 1.
  rewrite run_bind. unfold log_with_timestamp at 1.
  rewrite run_bind, recipients_of_run.
  destruct (environ w !! "EMAIL_RECIPIENTS") as [r|].
  - rewrite run_bind.
    match goal with |- context [Logged.send_email w ?a ?b ?c ?fx0] =>
      destruct (Logged_send_email_log w a b c fx0) as (fx2 & -> & Hl2) end.
    cbn [log] in Hl1, Hl2.
    destruct (port_failure w) as [e|] eqn:Hport; cbn [result_of snd].
    + rewrite Hl2, Hl1, <-!app_assoc, ?app_nil_r. reflexivity.
    + unfold log_with_timestamp. cbn [snd log].
      rewrite Hl2, Hl1, <-!app_assoc. reflexivity.
  - cbn [snd log] in *. rewrite Hl1, <-!app_assoc, ?app_nil_r. reflexivity.
Qed.

(** X17: the log of a run of [src/main.py] in full, for a run in which each
    fetch either raises a [requests.RequestException] in [requests.get]
    or [raise_for_status], or returns a document of the endpoint's shape:
    the opening line, the lines of the two fetches (such a failed fetch
    at level ERROR with the URL and the error, in place of the success
    line), the counts, the two lines about the file, then, when the
    recipients are configured, the line naming them and, when the port is
    read, the outcome of the email (a failure at level ERROR) and the
    closing line. *)
Theorem log_of_a_run `{Builtins} (w : world) (fx : effects) :
  log (snd (Logged.main w fx)) = log fx ++ main_log w
  ∧ Forall (λ line, (ERROR, line) ∈ main_log w) (fetch_errors w).
Proof.
  split; [apply Logged_main_log|].
  unfold fetch_errors, main_log, report_log.
  apply Forall_app. split.
  - destruct (hub_services_api w) as [e|]; [|constructor].
    constructor; [|constructor]. simpl.
    do 4 apply list_elem_of_further. apply list_elem_of_here.
  - destruct (statuses_api w) as [e|]; [|constructor].
    constructor; [|constructor]. simpl.
    do 8 apply list_elem_of_further. apply list_elem_of_here.
Qed.

Lemma main_log_last `{Builtins} w :
  last (main_log w)
  = Some match environ w !! "EMAIL_RECIPIENTS" with
         | None => (INFO, "Report saved to " +:+ report_path)
         | Some r =>
             match port_failure w with
             | Some _ => (INFO, "Sending email to " +:+ join ", " (split "," r))
             | None => (INFO, "Script execution completed")
             end
         end.
Proof.
  unfold main_log, send_log. rewrite last_cons, !last_app.
  destruct (environ w !! "EMAIL_RECIPIENTS") as [r|]; [|done].
  rewrite last_app. by destruct (port_failure w).
Qed.

(** X18: the log of [src/main.py] ends with "Script execution completed"
    exactly when [main] ends normally, and an email that could not be sent
    then stands in the line before it, at level ERROR with the text of the
    exception. *)
Theorem closing_log_line `{Builtins} (w : world) (fx : effects) :
  (last (log (snd (Logged.main w fx))) = Some (INFO, "Script execution completed")
   ↔ fst (Logged.main w fx) = Ret ())
  ∧ ∀ e, fst (Logged.main w fx) = Ret () →
         session_failure w (use_tls_of w) = Some e →
         ∃ before,
           log (snd (Logged.main w fx))
           = before ++ [(ERROR, "Error sending email: " +:+ exn_str e);
                        (INFO, "Script execution completed")].
Proof.
  rewrite Logged_main_log, last_app, main_log_last.
  destruct (Logged_main_run w fx) as (fx' & -> & _). cbn [fst].
  unfold logged_main_failure, main_log, send_log.
  destruct (environ w !! "EMAIL_RECIPIENTS") as [r|].
  - destruct (port_failure w) as [e0|]; cbn [result_of].
    + split; [|by intros e He].
      split; [|done]. intros [= Heq]; by rewrite append_cons in Heq.
    + split; [done|]. intros e _ ->.
      exists (log fx ++ (INFO, "Starting Citrix Service Status Report script")
                :: report_log w
                ++ [ (INFO, "Saving report to file");
                     (INFO, "Report saved to " +:+ report_path);
                     (INFO, "Sending email to " +:+ join ", " (split "," r)) ]).
      rewrite <-!app_assoc; cbn [app]; rewrite <-?app_assoc; reflexivity.
  - split; [|by intros e He].
    split; [|done]. intros [= Heq]; vm_compute in Heq; done.
Qed.

Lemma logged_send_email_swallows_witness :
  @port_failure first_seen w_smtp_refused = None
  ∧ ∃ fx', @Logged.send_email first_seen w_smtp_refused "Citrix Service Status Report"
             "<html></html>" ["ops@example.com"] no_effects = (Ret (), fx')
           ∧ files fx' = files no_effects.
Proof.
  split; [vm_compute; reflexivity|].
  apply (@logged_send_email_swallows first_seen w_smtp_refused
           "Citrix Service Status Report" "<html></html>" ["ops@example.com"] no_effects).
  vm_compute; reflexivity.
Defined.
